(** * EduRecommender: retrieval, re-ranking and caching

    A shallow embedding of the recommendation core of the repository
    ([app/schemas.py], [app/embeddings.py], [app/llm_ranker.py] and
    [app/recommender.py]) together with the properties its specification
    states about it.

    Conventions of the embedding:
    - a Python [int] is a [Z]; a Python [float] is an exact rational [Q]:
      the rounding error of binary floating point is not modelled (so a sum
      such as 0.4 + 0.2 is 0.6 exactly), a quotient by zero is an error, a
      JSON number out of the range of a double is an infinity, and the
      floating-point square root is a parameter;
    - a Python [str] is a [string] of bytes (the UTF-8 encoding of the text);
      the brackets and fences the code looks for are ASCII, white space is
      Unicode's, read in its encoding;
    - a function that may raise returns a [result]: [Ok v] or [Raise e];
    - module-level mutable state is passed explicitly;
    - the outside world is an input: the outcome of the HTTP call to the
      chat endpoint, the embedding backend and the catalogue;
    - library code is modelled by its documented behaviour: [json.loads],
      the field validation of the model classes, [cosine_similarity],
      [hash], [round], the stable sort and slices;
    - the interpreter's recursion limit, time measurements and logging are
      left out. *)

From Stdlib Require Import ZArith QArith Qround String Ascii List Sorted Permutation Lia.
From stdpp Require Import base option list sorting gmap strings.

Open Scope string_scope.
Open Scope Z_scope.

(** ** Exceptions and the error monad *)

Inductive exn : Type :=
  | ValueError
  | JSONDecodeError
  | ValidationError
  | KeyError
  | IndexError
  | TypeError
  | AttributeError
  | HTTPError
  | ConnectionError
  | ZeroDivisionError.

Inductive result (A : Type) : Type :=
  | Ok (a : A)
  | Raise (e : exn).
Arguments Ok {A} a.
Arguments Raise {A} e.

Global Instance result_bind : MBind result := fun A B f m =>
  match m with
  | Ok a => f a
  | Raise e => Raise e
  end.

Global Instance result_ret : MRet result := fun A a => Ok a.

(** [[f(x) for x in l]] where [f] may raise: the first exception wins. *)
Fixpoint mapM {A B} (f : A -> result B) (l : list A) : result (list B) :=
  match l with
  | [] => Ok []
  | x :: l' => y ← f x; ys ← mapM f l'; Ok (y :: ys)
  end.

Definition is_ok {A} (m : result A) : bool :=
  match m with Ok _ => true | Raise _ => false end.

(** ** Python built-ins used by the code *)

Module py.

(** [l[:k]]: the first [k] elements for [k >= 0]; for a negative [k] all but
    the last [-k] elements. *)
Definition slice_to {A} (k : Z) (l : list A) : list A :=
  if 0 <=? k then take (Z.to_nat k) l
  else take (length l - Z.to_nat (- k))%nat l.

(** [enumerate(l, start)] *)
Fixpoint enumerate {A} (start : Z) (l : list A) : list (Z * A) :=
  match l with
  | [] => []
  | x :: l' => (start, x) :: enumerate (start + 1) l'
  end.

(** [l[i]]: a negative index counts from the end. *)
Definition index {A} (l : list A) (i : Z) : result A :=
  let j := if i <? 0 then i + Z.of_nat (length l) else i in
  if j <? 0 then Raise IndexError
  else match l !! Z.to_nat j with
       | Some x => Ok x
       | None => Raise IndexError
       end.

(** [l.sort(key=key, reverse=True)]: Python's sort is stable, also with
    [reverse=True]; elements with equal keys keep their relative order.
    Insertion from the right puts an element before the first one whose
    key is not larger than its own. *)
Section sort.
Context {A : Type} (key : A -> Q).

Fixpoint insert_desc (x : A) (l : list A) : list A :=
  match l with
  | [] => [x]
  | y :: l' =>
      if Qle_bool (key y) (key x) then x :: y :: l'
      else y :: insert_desc x l'
  end.

Definition sort_desc (l : list A) : list A := foldr insert_desc [] l.
End sort.

(** [round(x, 3)] on an exact rational: nearest multiple of 1/1000, halves
    to the even neighbour. *)
Definition round_half_even (x : Q) : Z :=
  let f := Qfloor x in
  let r := (x - inject_Z f)%Q in
  match (r ?= 1 # 2)%Q with
  | Lt => f
  | Gt => f + 1
  | Eq => if Z.even f then f else f + 1
  end.

Definition round3 (x : Q) : Q := Qred (round_half_even (x * 1000) # 1000).

(** [hash(n)] for an [int] on a 64-bit CPython: the value modulo the
    Mersenne prime [2^61 - 1] with the sign of [n]; [-1] is reserved for
    errors and replaced by [-2]. *)
Definition hash_int (n : Z) : Z :=
  let h := Z.sgn n * (Z.abs n mod (2 ^ 61 - 1)) in
  if h =? -1 then -2 else h.

Definition wrap64 (x : Z) : Z := x mod 2 ^ 64.

Definition XXPRIME_1 : Z := 11400714785074694791.
Definition XXPRIME_2 : Z := 14029467366897019727.
Definition XXPRIME_5 : Z := 2870177450012600261.

Definition XXROTATE (x : Z) : Z :=
  wrap64 (Z.lor (Z.shiftl x 31) (Z.shiftr x 33)).

(** [hash(tuple(ns))] for a tuple of ints (CPython 3.8 and later), with the
    64-bit unsigned accumulator written out and the final value read as a
    signed 64-bit integer. *)
Definition hash_tuple (ns : list Z) : Z :=
  let acc :=
    foldl (fun acc n =>
             let lane := wrap64 (hash_int n) in
             let acc := wrap64 (acc + lane * XXPRIME_2) in
             let acc := XXROTATE acc in
             wrap64 (acc * XXPRIME_1))
          XXPRIME_5 ns in
  let acc :=
    wrap64 (acc + Z.lxor (Z.of_nat (length ns))
                         (Z.lxor XXPRIME_5 3527539)) in
  if acc =? 2 ^ 64 - 1 then 1546275796
  else if acc <? 2 ^ 63 then acc else acc - 2 ^ 64.

(** ASCII white space as [str.isspace] sees it: tab to carriage return,
    the four separators 28 to 31, and the blank. *)
Definition is_space (c : ascii) : bool :=
  let n := nat_of_ascii c in
  ((9 <=? n) && (n <=? 13) || (28 <=? n) && (n <=? 32))%nat.

(** The number of bytes of the white-space character that [s] starts with,
    0 when it starts with none.  White space is what [str.isspace],
    [str.strip] and the regex [\s] take for it: the ASCII characters above
    and, in their UTF-8 encoding, U+0085, U+00A0, U+1680, U+2000 to U+200A,
    U+2028, U+2029, U+202F, U+205F and U+3000. *)
Definition space_width (s : string) : nat :=
  match s with
  | String c r =>
      if is_space c then 1%nat
      else
        match nat_of_ascii c, r with
        | 194%nat, String d _ =>
            let d := nat_of_ascii d in
            if ((d =? 133) || (d =? 160))%nat then 2%nat else 0%nat
        | 225%nat, String d (String e _) =>
            let d := nat_of_ascii d in
            let e := nat_of_ascii e in
            if ((d =? 154) && (e =? 128))%nat then 3%nat else 0%nat
        | 226%nat, String d (String e _) =>
            let d := nat_of_ascii d in
            let e := nat_of_ascii e in
            if ((d =? 128)
                && ((128 <=? e) && (e <=? 138) || (e =? 168) || (e =? 169)
                    || (e =? 175))
                || (d =? 129) && (e =? 159))%nat
            then 3%nat else 0%nat
        | 227%nat, String d (String e _) =>
            let d := nat_of_ascii d in
            let e := nat_of_ascii e in
            if ((d =? 128) && (e =? 128))%nat then 3%nat else 0%nat
        | _, _ => 0%nat
        end
  | EmptyString => 0%nat
  end.

(** Dropping leading white space, [width] telling how many bytes of white
    space a text starts with: [skip] bytes of a white-space character are
    still to be dropped. *)
Fixpoint lstrip_by (width : string -> nat) (skip : nat) (s : string) : string :=
  match s with
  | String c r =>
      match skip with
      | S skip' => lstrip_by width skip' r
      | O =>
          match width s with
          | S skip' => lstrip_by width skip' r
          | O => s
          end
      end
  | EmptyString => s
  end.

(** Dropping trailing white space: the text is cut where only white space
    follows. *)
Fixpoint rstrip_by (width : string -> nat) (s : string) : string :=
  match s with
  | String c r =>
      match lstrip_by width 0 s with
      | EmptyString => EmptyString
      | _ => String c (rstrip_by width r)
      end
  | EmptyString => EmptyString
  end.

Definition strip_by (width : string -> nat) (s : string) : string :=
  rstrip_by width (lstrip_by width 0 s).

(** [s.lstrip()], [s.rstrip()] and [s.strip()] *)
Definition lstrip (s : string) : string := lstrip_by space_width 0 s.
Definition rstrip (s : string) : string := rstrip_by space_width s.
Definition strip (s : string) : string := strip_by space_width s.

(** [sep.join(l)] *)
Fixpoint join (sep : string) (l : list string) : string :=
  match l with
  | [] => ""
  | [x] => x
  | x :: l' => x +:+ sep +:+ join sep l'
  end.

End py.

(** ** Python's [json] module: decoded values and [json.loads] *)

Module json.

(** What [json.loads] returns: [None], [bool], [int], [float], [str],
    [list] and [dict].  A [dict] keeps its items in source order; a repeated
    key is looked up at its last occurrence, as the decoder lets the last
    one win.  [NonFinite] stands for [NaN], [Infinity] and [-Infinity]. *)
Unset Elimination Schemes.
Inductive value : Type :=
  | Null
  | Bool (b : bool)
  | Int (n : Z)
  | Float (q : Q)
  | NonFinite
  | Str (s : string)
  | Array (l : list value)
  | Object (kvs : list (string * value)).
Set Elimination Schemes.

(** [d.get(k)] on the items of a dict: [None] when the key is absent. *)
Fixpoint lookup (k : string) (kvs : list (string * value)) : option value :=
  match kvs with
  | [] => None
  | (k', v) :: kvs' =>
      match lookup k kvs' with
      | Some v' => Some v'
      | None => if String.eqb k k' then Some v else None
      end
  end.

Definition is_dict (v : value) : bool :=
  match v with Object _ => true | _ => false end.

(** Truth value of a decoded value, as [x or default] tests it. *)
Definition truthy (v : value) : bool :=
  match v with
  | Null => false
  | Bool b => b
  | Int n => negb (n =? 0)
  | Float q => negb (Qeq_bool q 0)
  | NonFinite => true
  | Str s => negb (String.eqb s "")
  | Array l => match l with [] => false | _ => true end
  | Object kvs => match kvs with [] => false | _ => true end
  end.

Definition is_ws (c : ascii) : bool :=
  match nat_of_ascii c with
  | 32%nat | 9%nat | 10%nat | 13%nat => true
  | _ => false
  end.

Fixpoint skip_ws (s : string) : string :=
  match s with
  | String c r => if is_ws c then skip_ws r else s
  | EmptyString => s
  end.

Fixpoint strip_prefix (p s : string) : option string :=
  match p, s with
  | EmptyString, _ => Some s
  | String a p', String b s' => if Ascii.eqb a b then strip_prefix p' s' else None
  | String _ _, EmptyString => None
  end.

Definition digit_val (c : ascii) : option Z :=
  let n := Z.of_nat (nat_of_ascii c) in
  if (48 <=? n) && (n <=? 57) then Some (n - 48) else None.

Definition hex_val (c : ascii) : option Z :=
  let n := Z.of_nat (nat_of_ascii c) in
  if (48 <=? n) && (n <=? 57) then Some (n - 48)
  else if (65 <=? n) && (n <=? 70) then Some (n - 55)
  else if (97 <=? n) && (n <=? 102) then Some (n - 87)
  else None.

Definition hex4 (a b c d : ascii) : option Z :=
  match hex_val a, hex_val b, hex_val c, hex_val d with
  | Some x, Some y, Some z, Some w => Some (((x * 16 + y) * 16 + z) * 16 + w)
  | _, _, _, _ => None
  end.

Definition byte (n : Z) : ascii := ascii_of_N (Z.to_N n).

(** UTF-8 encoding of a code point, prepended to [s]. *)
Definition utf8 (cp : Z) (s : string) : string :=
  if cp <? 128 then String (byte cp) s
  else if cp <? 2048 then
    String (byte (192 + cp / 64)) (String (byte (128 + cp mod 64)) s)
  else if cp <? 65536 then
    String (byte (224 + cp / 4096))
      (String (byte (128 + (cp / 64) mod 64))
         (String (byte (128 + cp mod 64)) s))
  else
    String (byte (240 + cp / 262144))
      (String (byte (128 + (cp / 4096) mod 64))
         (String (byte (128 + (cp / 64) mod 64))
            (String (byte (128 + cp mod 64)) s))).

Definition simple_escape (c : ascii) : option ascii :=
  match nat_of_ascii c with
  | 34%nat => Some (byte 34)   (* quotation mark *)
  | 92%nat => Some (byte 92)   (* reverse solidus *)
  | 47%nat => Some (byte 47)   (* solidus *)
  | 98%nat => Some (byte 8)    (* b *)
  | 102%nat => Some (byte 12)  (* f *)
  | 110%nat => Some (byte 10)  (* n *)
  | 114%nat => Some (byte 13)  (* r *)
  | 116%nat => Some (byte 9)   (* t *)
  | _ => None
  end.

Definition prepend (f : string -> string) (m : option (string * string))
  : option (string * string) :=
  match m with
  | Some (s, r) => Some (f s, r)
  | None => None
  end.

(** The body of a string literal, after the opening quotation mark, up to
    and including the closing one (strict mode: no raw control character). *)
Fixpoint scan_string (s : string) : option (string * string) :=
  match s with
  | EmptyString => None
  | String c r =>
      if Ascii.eqb c (byte 34) then Some (EmptyString, r)
      else if Ascii.eqb c (byte 92) then
        match r with
        | String e r1 =>
            match simple_escape e with
            | Some ch => prepend (String ch) (scan_string r1)
            | None =>
                if Ascii.eqb e (byte 117) then
                  match r1 with
                  | String h1 (String h2 (String h3 (String h4 r2))) =>
                      match hex4 h1 h2 h3 h4 with
                      | Some hi =>
                          match r2 with
                          | String b (String u (String g1 (String g2
                              (String g3 (String g4 r3))))) =>
                              match hex4 g1 g2 g3 g4 with
                              | Some lo =>
                                  if Ascii.eqb b (byte 92) && Ascii.eqb u (byte 117)
                                     && (55296 <=? hi) && (hi <=? 56319)
                                     && (56320 <=? lo) && (lo <=? 57343)
                                  then prepend
                                         (utf8 (65536 + (hi - 55296) * 1024
                                                + (lo - 56320)))
                                         (scan_string r3)
                                  else prepend (utf8 hi) (scan_string r2)
                              | None => prepend (utf8 hi) (scan_string r2)
                              end
                          | _ => prepend (utf8 hi) (scan_string r2)
                          end
                      | None => None
                      end
                  | _ => None
                  end
                else None
            end
        | EmptyString => None
        end
      else if (nat_of_ascii c <? 32)%nat then None
      else prepend (String c) (scan_string r)
  end.

(** A maximal run of decimal digits: their values and the rest. *)
Fixpoint digits (s : string) : list Z * string :=
  match s with
  | String c r =>
      match digit_val c with
      | Some d => let '(ds, r') := digits r in (d :: ds, r')
      | None => ([], s)
      end
  | EmptyString => ([], s)
  end.

Definition of_digits (ds : list Z) : Z := foldl (fun a d => a * 10 + d) 0 ds.

(** The integer part [0|[1-9][0-9]*]: a leading zero stands alone. *)
Definition int_part (s : string) : option (Z * string) :=
  match s with
  | String c r =>
      match digit_val c with
      | Some 0 => Some (0, r)
      | Some _ => let '(ds, r') := digits s in Some (of_digits ds, r')
      | None => None
      end
  | EmptyString => None
  end.

(** The optional fraction [\.[0-9]+]: numerator, denominator, rest. *)
Definition frac_part (s : string) : option (Z * Z * string) :=
  match s with
  | String c r =>
      if Ascii.eqb c (byte 46) then
        match digits r with
        | ([], _) => None
        | (ds, r') => Some (of_digits ds, 10 ^ Z.of_nat (length ds), r')
        end
      else None
  | EmptyString => None
  end.

(** The optional exponent [[eE][-+]?[0-9]+]. *)
Definition exp_part (s : string) : option (Z * string) :=
  match s with
  | String c r =>
      if Ascii.eqb c (byte 101) || Ascii.eqb c (byte 69) then
        let '(neg, r1) :=
          match r with
          | String sg r1 =>
              if Ascii.eqb sg (byte 45) then (true, r1)
              else if Ascii.eqb sg (byte 43) then (false, r1)
              else (false, r)
          | EmptyString => (false, r)
          end in
        match digits r1 with
        | ([], _) => None
        | (ds, r') => Some (if neg then - of_digits ds else of_digits ds, r')
        end
      else None
  | EmptyString => None
  end.

Definition pow10 (e : Z) : Q :=
  if 0 <=? e then inject_Z (10 ^ e) else / inject_Z (10 ^ (- e)).

(** The value of a float literal: beyond the range of a double it is an
    infinity, below half the smallest double it is zero; the rounding in
    between is not modelled. *)
Definition float_of (q : Q) : value :=
  let a := if Qle_bool 0 q then q else (- q)%Q in
  if Qle_bool (inject_Z (2 ^ 1024 - 2 ^ 970)) a then NonFinite
  else if Qle_bool a (/ inject_Z (2 ^ 1075)) then Float 0
  else Float q.

(** A number literal: an [int] without fraction and exponent, else a
    [float]. *)
Definition scan_number (s : string) : option (value * string) :=
  let '(neg, s1) :=
    match s with
    | String c r => if Ascii.eqb c (byte 45) then (true, r) else (false, s)
    | EmptyString => (false, s)
    end in
  match int_part s1 with
  | None => None
  | Some (n, s2) =>
      let sign (q : Q) : Q := if neg then (- q)%Q else q in
      match frac_part s2, exp_part s2 with
      | None, None => Some (Int (if neg then - n else n), s2)
      | None, Some (e, s3) =>
          Some (float_of (Qred (sign (inject_Z n * pow10 e)%Q)), s3)
      | Some (fn, fd, s3), _ =>
          let m := (inject_Z n + Qmake fn (Z.to_pos fd))%Q in
          match exp_part s3 with
          | Some (e, s4) => Some (float_of (Qred (sign (m * pow10 e)%Q)), s4)
          | None => Some (float_of (Qred (sign m)), s3)
          end
      end
  end.

(** The values without nesting: [null], [true], [false], a number, or one
    of the non-finite constants. *)
Definition scan_constant (s : string) : option (value * string) :=
  match strip_prefix "null" s, strip_prefix "true" s, strip_prefix "false" s with
  | Some r', _, _ => Some (Null, r')
  | _, Some r', _ => Some (Bool true, r')
  | _, _, Some r' => Some (Bool false, r')
  | None, None, None =>
      match scan_number s with
      | Some res => Some res
      | None =>
          match strip_prefix "NaN" s, strip_prefix "Infinity" s,
                strip_prefix "-Infinity" s with
          | Some r', _, _ | _, Some r', _ | _, _, Some r' => Some (NonFinite, r')
          | None, None, None => None
          end
      end
  end.

(** The recursive-descent decoder.  [fuel] bounds the number of nested
    calls; [loads] passes more than any text of that length can use. *)
Fixpoint scan_value (fuel : nat) (s : string) : option (value * string) :=
  match fuel with
  | O => None
  | S fuel =>
      match s with
      | EmptyString => None
      | String c r =>
          if Ascii.eqb c (byte 34) then
            match scan_string r with
            | Some (str, r') => Some (Str str, r')
            | None => None
            end
          else if Ascii.eqb c (byte 91) then
            match skip_ws r with
            | String c' r' as r0 =>
                if Ascii.eqb c' (byte 93) then Some (Array [], r')
                else match scan_elements fuel r0 with
                     | Some (l, r'') => Some (Array l, r'')
                     | None => None
                     end
            | EmptyString => None
            end
          else if Ascii.eqb c (byte 123) then
            match skip_ws r with
            | String c' r' as r0 =>
                if Ascii.eqb c' (byte 125) then Some (Object [], r')
                else match scan_members fuel r0 with
                     | Some (kvs, r'') => Some (Object kvs, r'')
                     | None => None
                     end
            | EmptyString => None
            end
          else scan_constant s
      end
  end
(** The elements of a non-empty array, up to and including the closing
    bracket; [s] starts at the first element. *)
with scan_elements (fuel : nat) (s : string) : option (list value * string) :=
  match fuel with
  | O => None
  | S fuel =>
      match scan_value fuel s with
      | Some (v, r) =>
          match skip_ws r with
          | String c r' =>
              if Ascii.eqb c (byte 93) then Some ([v], r')
              else if Ascii.eqb c (byte 44) then
                match scan_elements fuel (skip_ws r') with
                | Some (l, r'') => Some (v :: l, r'')
                | None => None
                end
              else None
          | EmptyString => None
          end
      | None => None
      end
  end
(** The members of a non-empty object, up to and including the closing
    brace; [s] starts at the first key. *)
with scan_members (fuel : nat) (s : string)
  : option (list (string * value) * string) :=
  match fuel with
  | O => None
  | S fuel =>
      match s with
      | String q r =>
          if Ascii.eqb q (byte 34) then
            match scan_string r with
            | Some (k, r1) =>
                match skip_ws r1 with
                | String col r2 =>
                    if Ascii.eqb col (byte 58) then
                      match scan_value fuel (skip_ws r2) with
                      | Some (v, r3) =>
                          match skip_ws r3 with
                          | String c r4 =>
                              if Ascii.eqb c (byte 125) then Some ([(k, v)], r4)
                              else if Ascii.eqb c (byte 44) then
                                match scan_members fuel (skip_ws r4) with
                                | Some (kvs, r5) => Some ((k, v) :: kvs, r5)
                                | None => None
                                end
                              else None
                          | EmptyString => None
                          end
                      | None => None
                      end
                    else None
                | EmptyString => None
                end
            | None => None
            end
          else None
      | EmptyString => None
      end
  end.

(** [json.loads(s)]: one value, surrounded by optional white space. *)
Definition loads (s : string) : result value :=
  match scan_value (2 * String.length s + 2) (skip_ws s) with
  | Some (v, r) =>
      match skip_ws r with
      | EmptyString => Ok v
      | String _ _ => Raise JSONDecodeError
      end
  | None => Raise JSONDecodeError
  end.

End json.

(** ** [app/schemas.py]: the data contracts *)

Module schemas.

Inductive Difficulty : Type := BEGINNER | INTERMEDIATE | ADVANCED.
Inductive LearningStyle : Type := VISUAL | READING | HANDS_ON.
Inductive ContentFormat : Type := VIDEO | SLIDES | LECTURE.

(** The members are [str] subclasses; [value] is the string each one is. *)
Definition Difficulty_value (d : Difficulty) : string :=
  match d with
  | BEGINNER => "Beginner"
  | INTERMEDIATE => "Intermediate"
  | ADVANCED => "Advanced"
  end.

Definition LearningStyle_value (s : LearningStyle) : string :=
  match s with
  | VISUAL => "visual"
  | READING => "reading"
  | HANDS_ON => "hands-on"
  end.

Definition ContentFormat_value (f : ContentFormat) : string :=
  match f with
  | VIDEO => "video"
  | SLIDES => "slides"
  | LECTURE => "lecture"
  end.

(** What an f-string shows for a member: since Python 3.11 the name of the
    class and of the member (before that, the value). *)
Definition Difficulty_str (d : Difficulty) : string :=
  match d with
  | BEGINNER => "Difficulty.BEGINNER"
  | INTERMEDIATE => "Difficulty.INTERMEDIATE"
  | ADVANCED => "Difficulty.ADVANCED"
  end.

Definition LearningStyle_str (s : LearningStyle) : string :=
  match s with
  | VISUAL => "LearningStyle.VISUAL"
  | READING => "LearningStyle.READING"
  | HANDS_ON => "LearningStyle.HANDS_ON"
  end.

Module ContentItem.
Record t : Type := mk {
  id : Z;
  title : string;
  description : string;
  difficulty : Difficulty;
  duration_minutes : Z;   (* Field(..., gt=0) *)
  tags : list string;
  format : ContentFormat
}.
Definition valid (c : t) : Prop := 0 < duration_minutes c.
End ContentItem.

Module UserProfile.
Record t : Type := mk {
  user_id : string;
  name : string;
  goal : string;
  learning_style : LearningStyle;
  preferred_difficulty : Difficulty;
  time_per_day : Z;       (* Field(..., gt=0) *)
  viewed_content_ids : list Z;
  interest_tags : list string
}.
Definition valid (p : t) : Prop := 0 < time_per_day p.
End UserProfile.

(** Field validation as the model class performs it on construction (lax
    mode): an [int] field takes an int, a bool, a finite float without
    fractional part or a string that reads as an integer; a [str] field
    takes a string only; a [list[str]] field takes a list of strings. *)

(** The white space the validator trims off a string: Unicode's, which is
    Python's without the separators 28 to 31. *)
Definition white_space_width (s : string) : nat :=
  match s with
  | String c _ =>
      let n := nat_of_ascii c in
      if ((28 <=? n) && (n <=? 31))%nat then 0%nat else py.space_width s
  | EmptyString => 0%nat
  end.

(** An optional sign and decimal digits, at least one. *)
Definition parse_int (s : string) : option Z :=
  let '(neg, s1) :=
    match s with
    | String c r =>
        if Ascii.eqb c (json.byte 45) then (true, r)
        else if Ascii.eqb c (json.byte 43) then (false, r)
        else (false, s)
    | EmptyString => (false, s)
    end in
  match json.digits s1 with
  | ([], _) => None
  | (ds, EmptyString) =>
      Some (if neg then - json.of_digits ds else json.of_digits ds)
  | (_, String _ _) => None
  end.

(** The text before the first full stop, when only zeros follow it. *)
Fixpoint strip_decimal_zeros (s : string) : option string :=
  match s with
  | EmptyString => None
  | String c r =>
      if Ascii.eqb c "."%char then
        if forallb (fun a => Ascii.eqb a "0"%char) (list_ascii_of_string r)
        then Some EmptyString else None
      else option_map (String c) (strip_decimal_zeros r)
  end.

Fixpoint remove_underscores (s : string) : string :=
  match s with
  | EmptyString => EmptyString
  | String c r =>
      if Ascii.eqb c "_"%char then remove_underscores r
      else String c (remove_underscores r)
  end.

(** Is there an underscore, a double one, one at the end? *)
Fixpoint underscores (s : string) : bool * bool * bool :=
  match s with
  | EmptyString => (false, false, false)
  | String c r =>
      let '(some, double, last) := underscores r in
      let here := Ascii.eqb c "_"%char in
      (here || some,
       double || here && String.prefix "_" r,
       match r with EmptyString => here | _ => last end)
  end.

(** Underscores between digits are dropped: not a leading one, a trailing
    one or two in a row. *)
Definition strip_underscores (s : string) : option string :=
  let '(some, double, last) := underscores s in
  if String.prefix "_" s || last || negb some || double then None
  else Some (remove_underscores s).

(** A string for an [int] field: trimmed, then read as an integer, if need
    be after a fraction of zeros or the underscores are dropped. *)
Definition int_of_string (s : string) : option Z :=
  let s := py.strip_by white_space_width s in
  if (4300 <? String.length s)%nat then None
  else
    match parse_int s with
    | Some n => Some n
    | None =>
        match strip_decimal_zeros s with
        | Some s' => parse_int s'
        | None =>
            match strip_underscores s with
            | Some s' => parse_int s'
            | None => None
            end
        end
    end.

Definition validate_int (v : json.value) : result Z :=
  match v with
  | json.Int n => Ok n
  | json.Bool b => Ok (if b then 1 else 0)
  | json.Float q =>
      if Qeq_bool (inject_Z (Qfloor q)) q then Ok (Qfloor q)
      else Raise ValidationError
  | json.Str s =>
      match int_of_string s with
      | Some n => Ok n
      | None => Raise ValidationError
      end
  | _ => Raise ValidationError
  end.

Definition validate_str (v : json.value) : result string :=
  match v with
  | json.Str s => Ok s
  | _ => Raise ValidationError
  end.

Definition validate_str_list (v : json.value) : result (list string) :=
  match v with
  | json.Array l => mapM validate_str l
  | _ => Raise ValidationError
  end.

Module Recommendation.
Record t : Type := mk {
  rank : Z;               (* Field(..., ge=1) *)
  id : Z;
  title : string;
  format : string;
  difficulty : string;
  duration_minutes : Z;
  tags : list string;
  explanation : string;
  match_score : option Q  (* Field(None, ge=0.0, le=1.0) *)
}.

(** [Recommendation(rank=..., id=..., ...)]: every field is validated and
    the first failure raises. *)
Definition new (rank : Z)
    (id title format difficulty duration_minutes tags explanation : json.value)
    (match_score : option Q) : result t :=
  rank' ← (if 1 <=? rank then Ok rank else Raise ValidationError);
  id' ← validate_int id;
  title' ← validate_str title;
  format' ← validate_str format;
  difficulty' ← validate_str difficulty;
  duration' ← validate_int duration_minutes;
  tags' ← validate_str_list tags;
  explanation' ← validate_str explanation;
  score' ← match match_score with
            | None => Ok None
            | Some q =>
                if Qle_bool 0 q && Qle_bool q 1 then Ok (Some q)
                else Raise ValidationError
            end;
  Ok (mk rank' id' title' format' difficulty' duration' tags' explanation'
         score').
End Recommendation.

End schemas.

(** ** [app/llm_ranker.py]: re-ranking, remote or rule-based *)

Module llm_ranker.
Import schemas.

Definition _STYLE_FORMAT_MAP : gmap string (gset string) :=
  <[LearningStyle_value VISUAL := {["video"]}]>
  (<[LearningStyle_value READING := {["slides"; "lecture"]}]>
  (<[LearningStyle_value HANDS_ON := {["video"; "lecture"]}]> ∅)).

Definition _DIFFICULTY_ORDER : gmap string Z :=
  <["Beginner" := 0]> (<["Intermediate" := 1]> (<["Advanced" := 2]> ∅)).

Record RerankResult : Type := mkRerankResult {
  recommendations : list Recommendation.t;
  reasoning_raw : option string;
  method : string
}.

(** *** The remote call *)

(** What [http_requests.post] does with the request: it raises (no
    connection, time-out) or returns a response with a status code and a
    body.  The prompts only travel inside the request, so the model takes
    the outcome of the call as its input. *)
Inductive post_outcome : Type :=
  | Transport_error
  | Response (status_code : Z) (text : string).

(** [v[k]] for a string key. *)
Definition subscript_key (v : json.value) (k : string) : result json.value :=
  match v with
  | json.Object kvs =>
      match json.lookup k kvs with
      | Some x => Ok x
      | None => Raise KeyError
      end
  | _ => Raise TypeError
  end.

(** [v[0]] *)
Definition subscript_0 (v : json.value) : result json.value :=
  match v with
  | json.Array (x :: _) => Ok x
  | json.Array [] => Raise IndexError
  | json.Str (String c _) => Ok (json.Str (String c EmptyString))
  | json.Str EmptyString => Raise IndexError
  | json.Object _ => Raise KeyError
  | _ => Raise TypeError
  end.

(** [(message.get(k) or "").strip()] *)
Definition get_stripped (message : json.value) (k : string) : result string :=
  match message with
  | json.Object kvs =>
      match json.lookup k kvs with
      | None => Ok ""
      | Some v =>
          if json.truthy v then
            match v with
            | json.Str s => Ok (py.strip s)
            | _ => Raise AttributeError
            end
          else Ok ""
      end
  | _ => Raise AttributeError
  end.

(** [re.sub(r"```(?:json)?\s*", "", s)]: [skip] bytes of a matched fence
    or white-space character are still to be dropped, and [ws] tells that
    the white space after a fence is being dropped. *)
Fixpoint sub_fences (skip : nat) (ws : bool) (s : string) : string :=
  match s with
  | EmptyString => EmptyString
  | String c r =>
      match skip with
      | S skip' => sub_fences skip' ws r
      | O =>
          match (if ws then py.space_width s else O) with
          | S skip' => sub_fences skip' true r
          | O =>
              if String.prefix "```json" s then sub_fences 6 true r
              else if String.prefix "```" s then sub_fences 2 true r
              else String c (sub_fences O false r)
          end
      end
  end.

(** [s.replace("```", "")] *)
Fixpoint drop_fences (skip : nat) (s : string) : string :=
  match s with
  | EmptyString => EmptyString
  | String c r =>
      match skip with
      | S skip' => drop_fences skip' r
      | O =>
          if String.prefix "```" s then drop_fences 2 r
          else String c (drop_fences O r)
      end
  end.

Definition nonempty (s : string) : bool := negb (String.eqb s "").

Definition _call_llm (outcome : post_outcome) : result (string * option string) :=
  match outcome with
  | Transport_error => Raise ConnectionError
  | Response status_code text =>
      (* resp.raise_for_status() *)
      if (400 <=? status_code) && (status_code <? 600) then Raise HTTPError
      else
        body ← json.loads text;
        choices ← subscript_key body "choices";
        choice ← subscript_0 choices;
        message ← subscript_key choice "message";
        content ← get_stripped message "content";
        reasoning ← get_stripped message "reasoning";
        let response_text := if nonempty content then content else reasoning in
        if negb (nonempty response_text) then Raise ValueError
        else
          let response_text := sub_fences O false response_text in
          let response_text := py.strip (drop_fences O response_text) in
          Ok (response_text,
              if nonempty reasoning then Some reasoning else None)
  end.

(** *** Extraction of the JSON array *)

(** The inner loop over [j]: the number of characters from the start of [s]
    up to and including the first one at which the bracket depth is back
    to zero. *)
Fixpoint close_at (depth : Z) (s : string) : option nat :=
  match s with
  | EmptyString => None
  | String c r =>
      let depth' :=
        if Ascii.eqb c "["%char then depth + 1
        else if Ascii.eqb c "]"%char then depth - 1
        else depth in
      if depth' =? 0 then Some 1%nat
      else option_map S (close_at depth' r)
  end.

(** The body of the [try]: [best] after the span [raw[i : j + 1]]. *)
Definition consider (best : list json.value) (span : string) : list json.value :=
  match json.loads span with
  | Ok (json.Array parsed) =>
      if (length best <? length parsed)%nat && forallb json.is_dict parsed
      then parsed else best
  | _ => best
  end.

(** The outer loop over [i], on the text from position [i] on. *)
Fixpoint scan_from (s : string) (best : list json.value) : list json.value :=
  match s with
  | EmptyString => best
  | String ch r =>
      let best' :=
        if Ascii.eqb ch "["%char then
          match close_at 0 s with
          | Some n => consider best (String.substring 0 n s)
          | None => best
          end
        else best in
      scan_from r best'
  end.

Definition _extract_json_array (raw : string) : list json.value :=
  scan_from raw [].

(** *** Mapping the extracted objects to recommendations *)

(** [item.get(k)] / [item.get(k, default)] *)
Definition dict_get (item : json.value) (k : string) (default : json.value)
  : result json.value :=
  match item with
  | json.Object kvs =>
      Ok (match json.lookup k kvs with Some v => v | None => default end)
  | _ => Raise AttributeError
  end.

(** [{c.id: c for c in candidates}]: a later candidate replaces an earlier
    one with the same id. *)
Definition cand_map_of (candidates : list ContentItem.t) : gmap Z ContentItem.t :=
  foldl (fun m c => <[ContentItem.id c := c]> m) ∅ candidates.

(** [cand_map.get(cid)]: the key is compared as Python compares numbers
    ([True == 1], [2.0 == 2]); a string or [None] equals no int; a list or a
    dict cannot be hashed. *)
Definition cand_map_get (cand_map : gmap Z ContentItem.t) (cid : json.value)
  : result (option ContentItem.t) :=
  match cid with
  | json.Int n => Ok (cand_map !! n)
  | json.Bool b => Ok (cand_map !! (if b then 1 else 0))
  | json.Float q =>
      if Qeq_bool (inject_Z (Qfloor q)) q then Ok (cand_map !! Qfloor q)
      else Ok None
  | json.Array _ | json.Object _ => Raise TypeError
  | _ => Ok None
  end.

Definition json_tags (l : list string) : json.value :=
  json.Array (map json.Str l).

(** One round of the loop over [enumerate(items[:3], start=1)]. *)
Definition recommendation_of (cand_map : gmap Z ContentItem.t)
    (entry : Z * json.value) : result Recommendation.t :=
  let '(idx, item) := entry in
  cid ← dict_get item "id" json.Null;
  fallback ← cand_map_get cand_map cid;
  let fb {A} (f : ContentItem.t -> A) (d : A) : A :=
    match fallback with Some c => f c | None => d end in
  title ← dict_get item "title"
            (json.Str (fb ContentItem.title ""));
  format ← dict_get item "format"
             (json.Str (fb (fun c => ContentFormat_value (ContentItem.format c)) ""));
  difficulty ← dict_get item "difficulty"
                 (json.Str (fb (fun c => Difficulty_value (ContentItem.difficulty c)) ""));
  duration ← dict_get item "duration_minutes"
               (json.Int (fb ContentItem.duration_minutes 0));
  tags ← dict_get item "tags" (json_tags (fb ContentItem.tags []));
  explanation ← dict_get item "explanation"
                  (json.Str "Recommended based on your profile.");
  Recommendation.new idx cid title format difficulty duration tags explanation
    None.

Definition _parse_llm_response (raw : string) (candidates : list ContentItem.t)
  : result (list Recommendation.t) :=
  let items := _extract_json_array raw in
  match items with
  | [] => Raise ValueError
  | _ :: _ =>
      let cand_map := cand_map_of candidates in
      mapM (recommendation_of cand_map) (py.enumerate 1 (py.slice_to 3 items))
  end.

(** *** The rule-based fallback *)

(** A candidate is kept when it is not viewed and fits the daily budget. *)
Definition eligible (profile : UserProfile.t) (item : ContentItem.t) : bool :=
  negb (bool_decide (ContentItem.id item ∈ UserProfile.viewed_content_ids profile))
  && negb (UserProfile.time_per_day profile <? ContentItem.duration_minutes item).

(** The three terms of the score and their sum, in exact arithmetic: two
    scores that differ only by rounding error in the code are equal here,
    and a rounded score can differ from the code's in the third digit. *)
Definition tag_overlap (user_tags : gset string) (item : ContentItem.t) : Q :=
  (inject_Z (Z.of_nat (size (user_tags ∩ list_to_set (ContentItem.tags item))))
   / inject_Z (Z.of_nat (Nat.max (size user_tags) 1)))%Q.

Definition format_bonus (preferred_formats : gset string) (item : ContentItem.t) : Q :=
  if bool_decide (ContentFormat_value (ContentItem.format item) ∈ preferred_formats)
  then 2 # 10 else 0.

Definition diff_penalty (pref_diff : Z) (item : ContentItem.t) : Q :=
  let item_diff :=
    default 1 (_DIFFICULTY_ORDER
                 !! Difficulty_value (ContentItem.difficulty item)) in
  (inject_Z (Z.abs (item_diff - pref_diff)) * (15 # 100))%Q.

Definition score_of (profile : UserProfile.t) (item : ContentItem.t) : Q :=
  let user_tags : gset string := list_to_set (UserProfile.interest_tags profile) in
  let preferred_formats : gset string :=
    default ∅ (_STYLE_FORMAT_MAP
                 !! LearningStyle_value (UserProfile.learning_style profile)) in
  let pref_diff :=
    default 1 (_DIFFICULTY_ORDER
                 !! Difficulty_value (UserProfile.preferred_difficulty profile)) in
  (tag_overlap user_tags item + format_bonus preferred_formats item
   - diff_penalty pref_diff item)%Q.

(** The first loop: [(score, item)] for every candidate that is kept. *)
Definition scored_of (profile : UserProfile.t) (candidates : list ContentItem.t)
  : list (Q * ContentItem.t) :=
  omap (fun item =>
          if eligible profile item then Some (score_of profile item, item)
          else None)
       candidates.

(** The explanation of a pick.  The common tags are joined in the iteration
    order of a set, which Python leaves unspecified; the enum members are
    rendered as an f-string renders them. *)
Definition explanation_of (profile : UserProfile.t) (item : ContentItem.t) : string :=
  let user_tags : gset string := list_to_set (UserProfile.interest_tags profile) in
  let common : gset string := list_to_set (ContentItem.tags item) ∩ user_tags in
  "Matched on tags (" +:+ py.join ", " (elements common) +:+ "), "
  +:+ "format fits your "
  +:+ LearningStyle_str (UserProfile.learning_style profile) +:+ " style, "
  +:+ "and difficulty is "
  +:+ Difficulty_str (ContentItem.difficulty item) +:+ ".".

(** One round of the loop over [enumerate(scored[:3], start=1)]. *)
Definition pick_of (profile : UserProfile.t) (entry : Z * (Q * ContentItem.t))
  : result Recommendation.t :=
  let '(rank, (score, item)) := entry in
  Recommendation.new rank
    (json.Int (ContentItem.id item))
    (json.Str (ContentItem.title item))
    (json.Str (ContentFormat_value (ContentItem.format item)))
    (json.Str (Difficulty_value (ContentItem.difficulty item)))
    (json.Int (ContentItem.duration_minutes item))
    (json_tags (ContentItem.tags item))
    (json.Str (explanation_of profile item))
    (Some (py.round3 score)).

Definition _rule_based_rerank (profile : UserProfile.t)
    (candidates : list ContentItem.t) : result RerankResult :=
  let scored := py.sort_desc fst (scored_of profile candidates) in
  recommendations ← mapM (pick_of profile) (py.enumerate 1 (py.slice_to 3 scored));
  Ok (mkRerankResult recommendations
        (Some ("Rule-based scoring: tag overlap + format match "
               +:+ "+ difficulty proximity."))
        "rule-based").

(** *** The public entry point *)

(** [LLM_API_KEY] is the configured credential (empty when none is set). *)
Definition rerank (LLM_API_KEY : string) (outcome : post_outcome)
    (profile : UserProfile.t) (candidates : list ContentItem.t)
  : result RerankResult :=
  if negb (nonempty LLM_API_KEY) then _rule_based_rerank profile candidates
  else
    let attempt :=
      '(response_text, reasoning_raw) ← _call_llm outcome;
      recs ← _parse_llm_response response_text candidates;
      Ok (mkRerankResult recs reasoning_raw "llm") in
    match attempt with
    | Ok r => Ok r
    | Raise _ => _rule_based_rerank profile candidates   (* except Exception *)
    end.

End llm_ranker.

(** ** [app/embeddings.py]: cosine-similarity retrieval *)

Module embeddings.
Import schemas.

(** [sklearn.metrics.pairwise.cosine_similarity(X, Y)], by its documented
    behaviour: both arguments are two-dimensional with at least one row and
    one column and the same number of columns (else [ValueError]); every
    row is divided by its Euclidean norm, a norm of zero being replaced by
    one; the result holds the dot products of the normalised rows.  The
    square root is the floating-point one, taken as a parameter.  A
    quotient by zero is no number; the model makes it an error, and
    [normalize_row] is shown never to raise it. *)
(** The lines of [retrieve_top_k] after the similarities are known: the
    comprehension reads [items[idx]] for every index in order, then the
    stable sort, the slice and the final lookup. *)
Definition select_top_k (similarities : list Q) (items : list ContentItem.t)
    (k : Z) (excluded : gset Z) : result (list ContentItem.t) :=
  entries ← mapM (fun '(idx, score) =>
                    item ← py.index items idx;
                    Ok (idx, score, item))
                 (py.enumerate 0 similarities);
  let scored :=
    omap (fun '(idx, score, item) =>
            if bool_decide (ContentItem.id item ∈ excluded) then None
            else Some (idx, score))
         entries in
  let scored := py.sort_desc snd scored in
  mapM (fun '(idx, _) => py.index items idx) (py.slice_to k scored).

Section cosine.
Variable sqrtQ : Q -> Q.

Definition dot (x y : list Q) : Q :=
  foldr Qplus 0%Q (zip_with Qmult x y).

Definition norm (x : list Q) : Q := sqrtQ (dot x x).

(** A norm of zero is replaced by one before the division. *)
Definition handle_zeros_in_scale (n : Q) : Q :=
  if Qeq_bool n 0 then 1%Q else n.

(** Division of floats: by zero it yields no number ([nan] or an infinity,
    with a warning). *)
Definition fdiv (a n : Q) : result Q :=
  if Qeq_bool n 0 then Raise ZeroDivisionError else Ok (a / n)%Q.

Definition normalize_row (x : list Q) : result (list Q) :=
  let n := handle_zeros_in_scale (norm x) in
  mapM (fun a => fdiv a n) x.

Definition check_pairwise_arrays (X Y : list (list Q)) : bool :=
  match X, Y with
  | x :: _, _ :: _ =>
      let d := length x in
      negb (d =? 0)%nat
      && forallb (fun r => (length r =? d)%nat) X
      && forallb (fun r => (length r =? d)%nat) Y
  | _, _ => false
  end.

Definition cosine_similarity (X Y : list (list Q)) : result (list (list Q)) :=
  if check_pairwise_arrays X Y then
    Xn ← mapM normalize_row X;
    Yn ← mapM normalize_row Y;
    Ok (map (fun x => map (dot x) Yn) Xn)
  else Raise ValueError.

(** [user_emb] has shape [(1, dim)], [content_embs] shape [(N, dim)]. *)
Definition retrieve_top_k (user_emb content_embs : list (list Q))
    (items : list ContentItem.t) (k : Z) (exclude_ids : option (list Z))
  : result (list ContentItem.t) :=
  let excluded : gset Z := list_to_set (default [] exclude_ids) in
  sims ← cosine_similarity user_emb content_embs;
  similarities ← py.index sims 0;
  select_top_k similarities items k excluded.
End cosine.

Definition _content_text (item : ContentItem.t) : string :=
  ContentItem.title item +:+ ". " +:+ ContentItem.description item
  +:+ " Tags: " +:+ py.join ", " (ContentItem.tags item).

Definition _user_text (profile : UserProfile.t) : string :=
  "Goal: " +:+ UserProfile.goal profile +:+ ". "
  +:+ "Interests: " +:+ py.join ", " (UserProfile.interest_tags profile) +:+ ". "
  +:+ "Learning style: "
  +:+ LearningStyle_str (UserProfile.learning_style profile) +:+ ".".

End embeddings.

(** ** [app/recommender.py]: the cache and the pipeline *)

Module recommender.
Import schemas.

(** The module-level globals, and a record of every batch of texts handed
    to the embedding backend (the observable the cache is about). *)
Record state : Type := mkState {
  _cached_content_embs : option (list (list Q));
  _cache_hash : option Z;
  backend_calls : list (list string)
}.

Definition initial : state := mkState None None [].

Record RecommendationResponse : Type := mkResponse {
  user_id : string;
  recommendations : list Recommendation.t;
  pipeline_log : list string;   (* the step labels; timings are not modelled *)
  llm_reasoning : option string
}.

Section pipeline.
Variable sqrtQ : Q -> Q.
Variable _embed_texts : list string -> result (list (list Q)).

(** The embedding backend ([_embed_texts]: the local model or the remote
    endpoint) is a parameter; it may raise.  Every call is recorded in the
    state. *)
Definition call_backend (texts : list string) (st : state)
  : result (list (list Q)) * state :=
  (_embed_texts texts,
   mkState (_cached_content_embs st) (_cache_hash st)
           (backend_calls st ++ [texts])).

Definition get_content_embeddings (items : list ContentItem.t) :=
  call_backend (map embeddings._content_text items).

Definition get_user_embedding (profile : UserProfile.t) :=
  call_backend [embeddings._user_text profile].

(** [items] is what [get_all_content()] returns at the time of the call. *)
Definition _get_cached_content_embeddings (items : list ContentItem.t)
    (st : state) : result (list (list Q)) * state :=
  let current_hash := py.hash_tuple (map ContentItem.id items) in
  let miss :=
    match _cached_content_embs st, _cache_hash st with
    | Some _, Some h => negb (h =? current_hash)
    | _, _ => true
    end in
  if miss then
    match get_content_embeddings items st with
    | (Ok embs, st') =>
        (Ok embs, mkState (Some embs) (Some current_hash) (backend_calls st'))
    | (Raise e, st') => (Raise e, st')
    end
  else
    match _cached_content_embs st with
    | Some embs => (Ok embs, st)
    | None => (Raise TypeError, st)   (* not reached: a miss *)
    end.

Definition get_recommendations (LLM_API_KEY : string)
    (outcome : llm_ranker.post_outcome) (catalogue : list ContentItem.t)
    (profile : UserProfile.t) (st : state)
  : result RecommendationResponse * state :=
  let items := catalogue in
  match _get_cached_content_embeddings catalogue st with
  | (Raise e, st1) => (Raise e, st1)
  | (Ok content_embs, st1) =>
      match get_user_embedding profile st1 with
      | (Raise e, st2) => (Raise e, st2)
      | (Ok user_emb, st2) =>
          (candidates ← embeddings.retrieve_top_k sqrtQ user_emb content_embs
                           items 5 (Some (UserProfile.viewed_content_ids profile));
           result ← llm_ranker.rerank LLM_API_KEY outcome profile candidates;
           let step_name :=
             if String.eqb (llm_ranker.method result) "llm"
             then "LLM re-ranking" else "Rule-based ranking" in
           Ok (mkResponse (UserProfile.user_id profile)
                          (llm_ranker.recommendations result)
                          ["Embed content catalogue"; "Embed user profile";
                           "Cosine similarity retrieval"; step_name]
                          (llm_ranker.reasoning_raw result)),
           st2)
      end
  end.
End pipeline.

End recommender.

(** ** Helpers for stating the properties *)

(** Test texts are written with apostrophes where the JSON text has
    quotation marks; [quoted] puts the quotation marks in. *)
Fixpoint quoted (s : string) : string :=
  match s with
  | String c r =>
      String (if Ascii.eqb c (json.byte 39) then json.byte 34 else c) (quoted r)
  | EmptyString => EmptyString
  end.

(** A fixed-point square root (26 fractional bits), for running the
    retrieval on concrete vectors. *)
Definition sqrt_fixed (q : Q) : Q :=
  Qred (Z.sqrt (Qfloor (q * inject_Z (4 ^ 26))) # 2 ^ 26).

(** [x] comes before [y] after a stable descending sort by [key] of a list
    in which [R0] tells the original order: a larger key first, the
    original order among equal keys. *)
Definition before {A} (key : A -> Q) (R0 : A -> A -> Prop) (x y : A) : Prop :=
  (key y < key x)%Q \/ (key y == key x)%Q /\ R0 x y.

(** The retrieval order the specification describes: the indices of the
    candidates that are not excluded, by similarity descending and, among
    equal similarities, in catalogue order. *)
Definition sim_at (sims : list Q) (i : nat) : Q := default 0%Q (sims !! i).

Definition ranked_before (sims : list Q) : nat -> nat -> Prop :=
  before (sim_at sims) lt.

Definition kept (items : list schemas.ContentItem.t) (excluded : gset Z)
    (i : nat) : bool :=
  match items !! i with
  | Some item => negb (bool_decide (schemas.ContentItem.id item ∈ excluded))
  | None => false
  end.

Definition retrieval_order (sims : list Q) (items : list schemas.ContentItem.t)
    (excluded : gset Z) (order : list nat) : Prop :=
  order ≡ₚ filter (fun i => kept items excluded i = true) (seq 0 (length sims))
  /\ StronglySorted (ranked_before sims) order.

(** A row divided by its norm, a norm of zero counting as one. *)
Definition normalized (sqrtQ : Q -> Q) (x : list Q) : list Q :=
  map (fun a => (a / embeddings.handle_zeros_in_scale (embeddings.norm sqrtQ x))%Q) x.

(** The cosine similarity of two rows, as the library computes it. *)
Definition cosine (sqrtQ : Q -> Q) (x y : list Q) : Q :=
  embeddings.dot (normalized sqrtQ x) (normalized sqrtQ y).

Definition items_at (items : list schemas.ContentItem.t) (order : list nat)
  : list schemas.ContentItem.t :=
  omap (fun i => items !! i) order.

(** Balanced spans, as the specification describes them: the bracket depth
    of a text is the number of opening minus the number of closing square
    brackets in it; a span is balanced when it starts with an opening
    bracket, its depth is zero, and no shorter non-empty prefix of it has
    depth zero (it ends at the bracket that closes its first one). *)
Fixpoint depth_of (s : string) : Z :=
  match s with
  | EmptyString => 0
  | String c r =>
      (if Ascii.eqb c "["%char then 1
       else if Ascii.eqb c "]"%char then -1 else 0) + depth_of r
  end.

Definition balanced (span : string) : Prop :=
  (exists r, span = String "["%char r)
  /\ depth_of span = 0
  /\ forall p q, span = p +:+ q -> p <> "" -> q <> "" -> depth_of p <> 0.

(** [span] is a piece of [raw]. *)
Definition occurs_in (span raw : string) : Prop :=
  exists pre post, raw = pre +:+ span +:+ post.

(** [span] decodes to the list [l], all of whose elements are objects. *)
Definition valid_array (span : string) (l : list json.value) : Prop :=
  json.loads span = Ok (json.Array l) /\ forallb json.is_dict l = true.

(** An extracted object with its [rank] entries removed. *)
Definition without_rank (v : json.value) : json.value :=
  match v with
  | json.Object kvs =>
      json.Object (filter (fun kv : string * json.value => kv.1 <> "rank") kvs)
  | _ => v
  end.

(** Python's [==] between a decoded value and an int. *)
Definition id_matches (cid : json.value) (n : Z) : bool :=
  match cid with
  | json.Int m => m =? n
  | json.Bool b => (if b then 1 else 0) =? n
  | json.Float q => Qeq_bool q (inject_Z n)
  | _ => false
  end.

(** The candidate whose id matches the object's id: the last one, if
    several candidates carry that id. *)
Definition matching_candidate (cid : json.value)
    (candidates : list schemas.ContentItem.t) : option schemas.ContentItem.t :=
  last (filter (fun c => id_matches cid (schemas.ContentItem.id c) = true)
               candidates).

(** The picks are the first three of the sorted eligible candidates. *)
Definition picks (profile : schemas.UserProfile.t) (candidates : list schemas.ContentItem.t)
  : list (Q * schemas.ContentItem.t) :=
  py.slice_to 3 (py.sort_desc fst (llm_ranker.scored_of profile candidates)).

(** ** [app/data.py]: the mock catalogue and learners *)

Definition item1 : schemas.ContentItem.t :=
  schemas.ContentItem.mk 1 "Introduction to Kubernetes for ML Engineers"
    ("Hands-on deployment walkthrough using Docker and Kubernetes. "
     +:+ "Covers pod creation, service exposure, and scaling ML "
     +:+ "inference endpoints.")
    schemas.INTERMEDIATE 45 ["kubernetes"; "ml"; "deployment"; "docker"]
    schemas.VIDEO.

Definition item2 : schemas.ContentItem.t :=
  schemas.ContentItem.mk 2 "Python for Data Science – From Zero to Pandas"
    ("Beginner-friendly course covering Python basics, NumPy arrays, "
     +:+ "and Pandas DataFrames for exploratory data analysis.")
    schemas.BEGINNER 60 ["python"; "data-science"; "pandas"; "numpy"]
    schemas.LECTURE.

Definition item3 : schemas.ContentItem.t :=
  schemas.ContentItem.mk 3 "Deep Learning Fundamentals with PyTorch"
    ("Build neural networks from scratch using PyTorch. Covers "
     +:+ "tensors, autograd, CNNs, and training loops with real datasets.")
    schemas.INTERMEDIATE 90 ["deep-learning"; "pytorch"; "neural-networks"; "ml"]
    schemas.VIDEO.

Definition item4 : schemas.ContentItem.t :=
  schemas.ContentItem.mk 4 "MLOps Pipeline Design Patterns"
    ("Slide deck covering CI/CD for ML models, feature stores, "
     +:+ "model registries, and monitoring in production.")
    schemas.ADVANCED 30 ["mlops"; "ci-cd"; "deployment"; "monitoring"]
    schemas.SLIDES.

Definition item5 : schemas.ContentItem.t :=
  schemas.ContentItem.mk 5 "Natural Language Processing with Transformers"
    ("Understand attention mechanisms, BERT, and GPT architectures. "
     +:+ "Includes fine-tuning a text classifier on custom data.")
    schemas.ADVANCED 75 ["nlp"; "transformers"; "bert"; "ml"]
    schemas.LECTURE.

Definition item9 : schemas.ContentItem.t :=
  schemas.ContentItem.mk 9 "AI Model Deployment on AWS SageMaker"
    ("Step-by-step guide to packaging, deploying, and A/B testing "
     +:+ "ML models on AWS SageMaker with auto-scaling.")
    schemas.ADVANCED 55 ["aws"; "sagemaker"; "deployment"; "ml"]
    schemas.LECTURE.

Definition item10 : schemas.ContentItem.t :=
  schemas.ContentItem.mk 10 "Prompt Engineering for Large Language Models"
    ("Master prompt design techniques: few-shot, chain-of-thought, "
     +:+ "and system prompts for ChatGPT, Claude, and open-source LLMs.")
    schemas.BEGINNER 35 ["llm"; "prompt-engineering"; "ai"; "nlp"]
    schemas.SLIDES.

(** The learner [u1] of the mock data. *)
Definition alice : schemas.UserProfile.t :=
  schemas.UserProfile.mk "u1" "Alice"
    ("Learn to deploy ML models into production using "
     +:+ "Kubernetes and cloud platforms")
    schemas.VISUAL schemas.INTERMEDIATE 60 [1]
    ["ml"; "deployment"; "kubernetes"; "docker"].

(** Two one-item catalogues whose ids differ and whose id tuples have the
    same hash. *)
Definition item_minus1 : schemas.ContentItem.t :=
  schemas.ContentItem.mk (-1) "Draft A" "First draft." schemas.BEGINNER 10
    ["draft"] schemas.SLIDES.

Definition item_minus2 : schemas.ContentItem.t :=
  schemas.ContentItem.mk (-2) "Draft B" "Second draft." schemas.BEGINNER 10
    ["draft"] schemas.SLIDES.

(** An embedding backend for the concrete runs: every text gets the same
    vector. *)
Definition toy_backend (texts : list string) : result (list (list Q)) :=
  Ok (map (fun _ => [1; 0]%Q) texts).

(** A remote answer that recommends the item with id 1. *)
Definition answer_with_item1 : string :=
  quoted ("{'choices': [{'message': {'content': "
          +:+ "'[{\'id\': 1, \'title\': \'Introduction to Kubernetes for ML Engineers\', "
          +:+ "\'format\': \'video\', \'difficulty\': \'Intermediate\', "
          +:+ "\'duration_minutes\': 45, \'tags\': [\'kubernetes\', \'ml\'], "
          +:+ "\'explanation\': \'Matches your goal.\'}]'}}]}").

(** * Properties *)

(** ** The error monad *)

Lemma bind_Ok {A B} (m : result A) (f : A -> result B) b :
  m ≫= f = Ok b <-> exists a, m = Ok a /\ f a = Ok b.
Proof.
  destruct m as [a|e]; simpl; split.
  - intros H. exists a. auto.
  - intros (a' & Ha & Hf). congruence.
  - discriminate.
  - intros (a' & Ha & _). discriminate.
Qed.

Lemma mapM_Ok_length {A B} (f : A -> result B) l ys :
  mapM f l = Ok ys -> length ys = length l.
Proof.
  revert ys. induction l as [|x l IH]; simpl; intros ys H.
  - injection H as <-. reflexivity.
  - apply bind_Ok in H as (y & Hy & H).
    apply bind_Ok in H as (ys' & Hys & H).
    injection H as <-. simpl. f_equal. auto.
Qed.

Lemma mapM_Ok_lookup {A B} (f : A -> result B) l ys i y :
  mapM f l = Ok ys -> ys !! i = Some y ->
  exists x, l !! i = Some x /\ f x = Ok y.
Proof.
  revert ys i. induction l as [|x l IH]; simpl; intros ys i H Hi.
  - injection H as <-. destruct i; discriminate.
  - apply bind_Ok in H as (y0 & Hy & H).
    apply bind_Ok in H as (ys' & Hys & H).
    injection H as <-. destruct i as [|i]; simpl in *.
    + injection Hi as <-. eauto.
    + eauto.
Qed.

Lemma mapM_all_Ok {A B} (f : A -> result B) l :
  (forall x, In x l -> exists y, f x = Ok y) ->
  exists ys, mapM f l = Ok ys.
Proof.
  induction l as [|x l IH]; simpl; intros H.
  - eauto.
  - destruct (H x) as [y Hy]; [auto|].
    destruct IH as [ys Hys]; [auto|].
    rewrite Hy, Hys. simpl. eauto.
Qed.

Lemma mapM_Raise {A B} (f : A -> result B) l x e :
  In x l -> f x = Raise e -> exists e', mapM f l = Raise e'.
Proof.
  induction l as [|a l IH]; simpl; intros Hin Hx; [contradiction|].
  destruct Hin as [->|Hin].
  - rewrite Hx. simpl. eauto.
  - destruct (f a); simpl; [|eauto].
    destruct (IH Hin Hx) as [e' ->]. simpl. eauto.
Qed.

(** ** The models of the built-ins agree with the interpreter *)

Example hash_tuple_empty : py.hash_tuple [] = 5740354900026072187.
Proof. vm_compute. reflexivity. Qed.
Example hash_tuple_12 : py.hash_tuple [1; 2] = -3550055125485641917.
Proof. vm_compute. reflexivity. Qed.
Example hash_tuple_21 : py.hash_tuple [2; 1] = 6794810172467074373.
Proof. vm_compute. reflexivity. Qed.
Example hash_tuple_m1 : py.hash_tuple [-1] = 8078679518589016365.
Proof. vm_compute. reflexivity. Qed.
Example round3_ex : py.round3 (-3 # 10) = -3 # 10 /\ py.round3 (1 # 16) = 31 # 500.
Proof. vm_compute. auto. Qed.
Example strip_ex : py.strip "  a b  " = "a b".
Proof. reflexivity. Qed.

Example loads_ex1 :
  json.loads (quoted " [ {'id': 3, 'tags': ['a', 'b\u0041'], 'x': -1.50e1}, null, true ] ")
  = Ok (json.Array [json.Object [("id", json.Int 3);
                                 ("tags", json.Array [json.Str "a"; json.Str "bA"]);
                                 ("x", json.Float (-15))];
                    json.Null; json.Bool true]).
Proof. vm_compute. reflexivity. Qed.


(** ** The decoder never lacks fuel *)

Section fuel_props.
Import json.

Lemma skip_ws_length s : (String.length (skip_ws s) <= String.length s)%nat.
Proof. induction s as [|c s IH]; simpl; [lia|]. destruct (is_ws c); simpl; lia. Qed.

Lemma strip_prefix_length p s r :
  strip_prefix p s = Some r -> (String.length r <= String.length s)%nat.
Proof.
  revert s. induction p as [|a p IH]; intros [|b s]; simpl; try done.
  - intros [= <-]. done.
  - intros [= <-]. done.
  - destruct (Ascii.eqb a b); [|done]. intros H%IH. lia.
Qed.

Lemma prepend_Some f m str r :
  prepend f m = Some (str, r) -> exists str', m = Some (str', r).
Proof. destruct m as [[s' r']|]; [|done]. intros [= _ <-]. eauto. Qed.

Lemma scan_string_length s str r :
  scan_string s = Some (str, r) -> (String.length r <= String.length s)%nat.
Proof.
  remember (String.length s) as n eqn:Hn. revert s str r Hn.
  induction n as [n IH] using lt_wf_ind. intros s str r -> H.
  destruct s as [|c s]; [done|]. simpl in H.
  repeat (case_match; simplify_eq; try done); try (simpl; lia);
    match goal with
    | H : prepend _ (scan_string ?t) = Some _ |- _ =>
        apply prepend_Some in H as [? H];
        apply (IH (String.length t)) in H; [|simpl; lia|reflexivity]
    end; simpl in *; lia.
Qed.

Lemma digits_length s ds r :
  digits s = (ds, r) -> (String.length r <= String.length s)%nat.
Proof.
  revert ds r. induction s as [|c s IH]; simpl; intros ds r.
  - intros [= _ <-]. done.
  - destruct (digit_val c); [|intros [= _ <-]; simpl; lia].
    destruct (digits s) as [ds' r'] eqn:E. intros [= _ <-].
    specialize (IH _ _ eq_refl). lia.
Qed.

Lemma int_part_length s n r :
  int_part s = Some (n, r) -> (String.length r <= String.length s)%nat.
Proof.
  unfold int_part. destruct s as [|c s]; [done|].
  destruct (digit_val c) as [[| |]|] eqn:E; try done.
  - intros [= _ <-]. simpl. lia.
  - destruct (digits (String c s)) as [ds r'] eqn:Ed. intros [= _ <-].
    by apply digits_length in Ed.
  - destruct (digits (String c s)) as [ds r'] eqn:Ed. intros [= _ <-].
    by apply digits_length in Ed.
Qed.

Lemma frac_part_length s a b r :
  frac_part s = Some (a, b, r) -> (String.length r <= String.length s)%nat.
Proof.
  unfold frac_part. destruct s as [|c s]; [done|].
  destruct (Ascii.eqb c (byte 46)); [|done].
  destruct (digits s) as [[|d ds] r'] eqn:Ed; [done|]. intros [= _ _ <-].
  apply digits_length in Ed. simpl. lia.
Qed.

Lemma exp_part_length s e r :
  exp_part s = Some (e, r) -> (String.length r <= String.length s)%nat.
Proof.
  unfold exp_part. destruct s as [|c s]; [done|].
  destruct (Ascii.eqb c (byte 101) || Ascii.eqb c (byte 69)); [|done].
  destruct s as [|sg s1].
  - simpl. done.
  - destruct (Ascii.eqb sg (byte 45)); [|destruct (Ascii.eqb sg (byte 43))].
    + destruct (digits s1) as [[|d ds] r'] eqn:Ed; [done|]. intros [= _ <-].
      apply digits_length in Ed. simpl. lia.
    + destruct (digits s1) as [[|d ds] r'] eqn:Ed; [done|]. intros [= _ <-].
      apply digits_length in Ed. simpl. lia.
    + destruct (digits (String sg s1)) as [[|d ds] r'] eqn:Ed; [done|].
      intros [= _ <-]. apply digits_length in Ed. simpl in *. lia.
Qed.

Lemma scan_number_length s v r :
  scan_number s = Some (v, r) -> (String.length r <= String.length s)%nat.
Proof.
  unfold scan_number.
  set (p := match s with
            | String c r0 => if Ascii.eqb c (byte 45) then (true, r0) else (false, s)
            | EmptyString => (false, s)
            end).
  assert (String.length p.2 <= String.length s)%nat as Hp.
  { subst p. destruct s as [|c s]; [done|].
    destruct (Ascii.eqb c (byte 45)); simpl; lia. }
  destruct p as [neg s1]. simpl in Hp.
  destruct (int_part s1) as [[n s2]|] eqn:Ei; [|done].
  apply int_part_length in Ei.
  destruct (frac_part s2) as [[[fn fd] s3]|] eqn:Ef.
  - apply frac_part_length in Ef.
    destruct (exp_part s3) as [[e s4]|] eqn:Ee.
    + apply exp_part_length in Ee. intros [= _ <-]. lia.
    + intros [= _ <-]. lia.
  - destruct (exp_part s2) as [[e s3]|] eqn:Ee.
    + apply exp_part_length in Ee. intros [= _ <-]. lia.
    + intros [= _ <-]. lia.
Qed.

Lemma scan_constant_length s v r :
  scan_constant s = Some (v, r) -> (String.length r <= String.length s)%nat.
Proof.
  unfold scan_constant. intros H.
  repeat (case_match; simplify_eq; try done);
    repeat match goal with
      | E : strip_prefix _ _ = Some _ |- _ => apply strip_prefix_length in E
      | E : scan_number _ = Some _ |- _ => apply scan_number_length in E
      end; done.
Qed.

Lemma scan_value_S n s :
  scan_value (S n) s
  = match s with
    | EmptyString => None
    | String c r =>
        if Ascii.eqb c (byte 34) then
          match scan_string r with
          | Some (str, r') => Some (Str str, r')
          | None => None
          end
        else if Ascii.eqb c (byte 91) then
          match skip_ws r with
          | String c' r' as r0 =>
              if Ascii.eqb c' (byte 93) then Some (Array [], r')
              else match scan_elements n r0 with
                   | Some (l, r'') => Some (Array l, r'')
                   | None => None
                   end
          | EmptyString => None
          end
        else if Ascii.eqb c (byte 123) then
          match skip_ws r with
          | String c' r' as r0 =>
              if Ascii.eqb c' (byte 125) then Some (Object [], r')
              else match scan_members n r0 with
                   | Some (kvs, r'') => Some (Object kvs, r'')
                   | None => None
                   end
          | EmptyString => None
          end
        else scan_constant s
    end.
Proof. reflexivity. Qed.

Lemma scan_elements_S n s :
  scan_elements (S n) s
  = match scan_value n s with
    | Some (v, r) =>
        match skip_ws r with
        | String c r' =>
            if Ascii.eqb c (byte 93) then Some ([v], r')
            else if Ascii.eqb c (byte 44) then
              match scan_elements n (skip_ws r') with
              | Some (l, r'') => Some (v :: l, r'')
              | None => None
              end
            else None
        | EmptyString => None
        end
    | None => None
    end.
Proof. reflexivity. Qed.

Lemma scan_members_S n s :
  scan_members (S n) s
  = match s with
    | String q r =>
        if Ascii.eqb q (byte 34) then
          match scan_string r with
          | Some (k, r1) =>
              match skip_ws r1 with
              | String col r2 =>
                  if Ascii.eqb col (byte 58) then
                    match scan_value n (skip_ws r2) with
                    | Some (v, r3) =>
                        match skip_ws r3 with
                        | String c r4 =>
                            if Ascii.eqb c (byte 125) then Some ([(k, v)], r4)
                            else if Ascii.eqb c (byte 44) then
                              match scan_members n (skip_ws r4) with
                              | Some (kvs, r5) => Some ((k, v) :: kvs, r5)
                              | None => None
                              end
                            else None
                        | EmptyString => None
                        end
                    | None => None
                    end
                  else None
              | EmptyString => None
              end
          | None => None
          end
        else None
    | EmptyString => None
    end.
Proof. reflexivity. Qed.

(** Facts about the lengths of the pieces of a scanned text. *)
Ltac lengths :=
  repeat match goal with
    | E : scan_string _ = Some _ |- _ => apply scan_string_length in E
    | E : scan_constant _ = Some _ |- _ => apply scan_constant_length in E
    | E : skip_ws ?t = _ |- _ =>
        let H := fresh in
        pose proof (skip_ws_length t) as H; rewrite E in H; clear E
    end;
  repeat match goal with
    | H : context [String.length (skip_ws ?t)] |- _ =>
        lazymatch goal with
        | _ : (String.length (skip_ws t) <= String.length t)%nat |- _ => fail
        | _ => pose proof (skip_ws_length t)
        end
    end;
  simpl in *.

Lemma scan_length n :
  (forall s v r, scan_value n s = Some (v, r) ->
     (String.length r <= String.length s)%nat)
  /\ (forall s l r, scan_elements n s = Some (l, r) ->
        (String.length r <= String.length s)%nat)
  /\ (forall s kvs r, scan_members n s = Some (kvs, r) ->
        (String.length r <= String.length s)%nat).
Proof.
  induction n as [|n (IHv & IHe & IHm)]; [done|].
  split; [|split]; intros s x r H.
  - rewrite scan_value_S in H.
    repeat (case_match; simplify_eq; try done);
      repeat match goal with
        | E : scan_elements n _ = Some _ |- _ => apply IHe in E
        | E : scan_members n _ = Some _ |- _ => apply IHm in E
        end; lengths; lia.
  - rewrite scan_elements_S in H.
    repeat (case_match; simplify_eq; try done);
      repeat match goal with
        | E : scan_value n _ = Some _ |- _ => apply IHv in E
        | E : scan_elements n _ = Some _ |- _ => apply IHe in E
        end; lengths; lia.
  - rewrite scan_members_S in H.
    repeat (case_match; simplify_eq; try done);
      repeat match goal with
        | E : scan_value n _ = Some _ |- _ => apply IHv in E
        | E : scan_members n _ = Some _ |- _ => apply IHm in E
        end; lengths; lia.
Qed.

(** The same facts, keeping the equations. *)
Ltac length_facts m :=
  repeat match goal with
    | E : scan_string _ = Some _ |- _ =>
        pose proof (scan_string_length _ _ _ E); revert E
    | E : scan_value m _ = Some (_, _) |- _ =>
        pose proof (proj1 (scan_length m) _ _ _ E); revert E
    | E : scan_elements m _ = Some (_, _) |- _ =>
        pose proof (proj1 (proj2 (scan_length m)) _ _ _ E); revert E
    | E : scan_members m _ = Some (_, _) |- _ =>
        pose proof (proj2 (proj2 (scan_length m)) _ _ _ E); revert E
    | E : skip_ws ?t = _ |- _ =>
        let H := fresh in
        pose proof (skip_ws_length t) as H; rewrite E in H; revert E
    end;
  intros;
  repeat match goal with
    | H : context [String.length (skip_ws ?t)] |- _ =>
        lazymatch goal with
        | _ : (String.length (skip_ws t) <= String.length t)%nat |- _ => fail
        | _ => pose proof (skip_ws_length t)
        end
    end;
  simpl in *.

(** A result obtained with some fuel is obtained with any fuel above twice
    the length of the text. *)
Lemma scan_fuel m :
  (forall s res n, scan_value m s = Some res ->
     (2 * String.length s < n)%nat -> scan_value n s = Some res)
  /\ (forall s res n, scan_elements m s = Some res ->
        (2 * String.length s + 1 < n)%nat -> scan_elements n s = Some res)
  /\ (forall s res n, scan_members m s = Some res ->
        (2 * String.length s + 1 < n)%nat -> scan_members n s = Some res).
Proof.
  induction m as [|m (IHv & IHe & IHm)]; [done|].
  split; [|split]; intros s res [|n] H Hn; try lia.
  - rewrite scan_value_S in *.
    repeat (case_match; simplify_eq; try done); length_facts m;
      repeat match goal with
        | E : scan_elements m ?t = Some ?x |- _ =>
            apply (IHe t x n) in E; [|simpl; lia]
        | E : scan_members m ?t = Some ?x |- _ =>
            apply (IHm t x n) in E; [|simpl; lia]
        end; congruence.
  - rewrite scan_elements_S in *.
    repeat (case_match; simplify_eq; try done); length_facts m;
      repeat match goal with
        | E : scan_value m ?t = Some ?x |- _ =>
            apply (IHv t x n) in E; [|simpl; lia]
        | E : scan_elements m ?t = Some ?x |- _ =>
            apply (IHe t x n) in E; [|simpl; lia]
        end; congruence.
  - rewrite scan_members_S in *.
    repeat (case_match; simplify_eq; try done); length_facts m;
      repeat match goal with
        | E : scan_value m ?t = Some ?x |- _ =>
            apply (IHv t x n) in E; [|simpl; lia]
        | E : scan_members m ?t = Some ?x |- _ =>
            apply (IHm t x n) in E; [|simpl; lia]
        end; congruence.
Qed.

(** [loads] returns what any amount of fuel can return. *)
Lemma loads_fuel (s : string) (m : nat) (v : value) (r : string) :
  scan_value m (skip_ws s) = Some (v, r) ->
  scan_value (2 * String.length s + 2) (skip_ws s) = Some (v, r).
Proof.
  intros H. apply (proj1 (scan_fuel m) _ _ _ H).
  pose proof (skip_ws_length s). lia.
Qed.
End fuel_props.

(** ** The stable descending sort *)

Section sort_props.
Context {A : Type} (key : A -> Q) (R0 : A -> A -> Prop).

Lemma insert_desc_perm x l : py.insert_desc key x l ≡ₚ x :: l.
Proof.
  induction l as [|y l IH]; simpl; [done|].
  destruct (Qle_bool (key y) (key x)); [done|].
  rewrite IH. apply Permutation_swap.
Qed.

Lemma sort_desc_perm l : py.sort_desc key l ≡ₚ l.
Proof.
  induction l as [|x l IH]; simpl; [done|].
  rewrite insert_desc_perm. by f_equiv.
Qed.

Lemma sort_desc_length l : length (py.sort_desc key l) = length l.
Proof. by rewrite sort_desc_perm. Qed.

Lemma insert_desc_sorted x l :
  StronglySorted (before key R0) l -> Forall (R0 x) l ->
  StronglySorted (before key R0) (py.insert_desc key x l).
Proof.
  induction l as [|y l IH]; simpl; intros Hs Hx.
  - repeat constructor.
  - apply StronglySorted_inv in Hs as [Hs Hy].
    apply Forall_cons in Hx as [Hxy Hx].
    destruct (Qle_bool (key y) (key x)) eqn:E.
    + apply Qle_bool_iff in E.
      assert (before key R0 x y) as Hb.
      { destruct (Qle_lt_or_eq _ _ E); [by left|by right]. }
      constructor; [by constructor|]. constructor; [done|].
      rewrite Forall_forall in Hy, Hx. apply Forall_forall. intros z Hz.
      destruct (Hy z Hz) as [Hlt|[Heq _]].
      * left. eapply Qlt_le_trans; eauto.
      * destruct (Qle_lt_or_eq _ _ E) as [Hlt|Heq'].
        -- left. by rewrite Heq.
        -- right. split; [by rewrite Heq|auto].
    + assert (key x < key y)%Q as Hlt.
      { apply Qnot_le_lt. intros H. apply Qle_bool_iff in H. congruence. }
      constructor; [auto|].
      rewrite insert_desc_perm. constructor; [by left|done].
Qed.

Lemma sort_desc_sorted l :
  StronglySorted R0 l -> StronglySorted (before key R0) (py.sort_desc key l).
Proof.
  induction l as [|x l IH]; simpl; intros Hs; [constructor|].
  apply StronglySorted_inv in Hs as [Hs Hx].
  apply insert_desc_sorted; [auto|]. by rewrite sort_desc_perm.
Qed.
End sort_props.

(** ** Retrieval *)

Section retrieval_props.
Import schemas.
Context (sims : list Q) (items : list ContentItem.t) (excluded : gset Z).

(** What the code knows about a scored entry. *)
Let good (e : Z * Q) : Prop :=
  0 <= e.1 /\ sims !! Z.to_nat e.1 = Some e.2
  /\ is_Some (items !! Z.to_nat e.1).

Lemma index_of_nat {A} (l : list A) (i : nat) :
  py.index l (Z.of_nat i) =
  match l !! i with Some x => Ok x | None => Raise IndexError end.
Proof.
  unfold py.index.
  destruct (Z.ltb_spec (Z.of_nat i) 0) as [?|_]; [lia|].
  destruct (Z.ltb_spec (Z.of_nat i) 0) as [?|_]; [lia|].
  by rewrite Nat2Z.id.
Qed.

Lemma slice_to_map {B C} (f : B -> C) k (l : list B) :
  py.slice_to k (map f l) = map f (py.slice_to k l).
Proof.
  unfold py.slice_to. rewrite length_map.
  destruct (0 <=? k); by rewrite <- fmap_take.
Qed.

Lemma slice_to_subseteq {B} k (l : list B) : py.slice_to k l ⊆ l.
Proof.
  unfold py.slice_to. destruct (0 <=? k); apply subseteq_take.
Qed.

Lemma StronglySorted_map_elem {B C} (R1 : B -> B -> Prop)
    (R2 : C -> C -> Prop) (f : B -> C) (l : list B) :
  (forall x y, x ∈ l -> y ∈ l -> R1 x y -> R2 (f x) (f y)) ->
  StronglySorted R1 l -> StronglySorted R2 (map f l).
Proof.
  induction l as [|x l IH]; simpl; intros H Hs; [constructor|].
  apply StronglySorted_inv in Hs as [Hs Hx].
  constructor.
  - apply IH; [|done]. intros y z Hy Hz. apply H; by right.
  - rewrite Forall_forall in Hx. apply Forall_forall.
    intros y (z & -> & Hz)%list_elem_of_fmap.
    apply H; [left|by right|]. by apply Hx.
Qed.

Let entry_of (e : Z * Q) : result (Z * Q * ContentItem.t) :=
  let '(idx, score) := e in item ← py.index items idx; Ok (idx, score, item).

Let scored_of (e : Z * Q * ContentItem.t) : option (Z * Q) :=
  let '(idx, score, item) := e in
  if bool_decide (ContentItem.id item ∈ excluded) then None
  else Some (idx, score).

Lemma entries_spec (ss : list Q) (start : nat) :
  (start + length ss <= length items)%nat ->
  (forall i s, ss !! i = Some s -> sims !! (start + i)%nat = Some s) ->
  exists entries,
    mapM entry_of (py.enumerate (Z.of_nat start) ss) = Ok entries
    /\ map (fun e : Z * Q => Z.to_nat e.1) (omap scored_of entries)
       = filter (fun i => kept items excluded i = true) (seq start (length ss))
    /\ Forall good (omap scored_of entries)
    /\ Forall (fun e : Z * Q => Z.of_nat start <= e.1) (omap scored_of entries)
    /\ StronglySorted (fun a b : Z * Q => a.1 < b.1) (omap scored_of entries).
Proof.
  revert start. induction ss as [|s ss IH]; intros start Hlen Hsims.
  - exists []. simpl. repeat split; constructor.
  - simpl in Hlen.
    destruct (lookup_lt_is_Some_2 items start) as [item Hitem]; [lia|].
    destruct (IH (S start)) as (entries & Hm & Hmap & Hgood & Hge & Hsorted).
    { lia. }
    { intros i s' Hi. replace (S start + i)%nat with (start + S i)%nat by lia.
      by apply Hsims. }
    exists ((Z.of_nat start, s, item) :: entries).
    assert (sims !! start = Some s) as Hs.
    { specialize (Hsims 0%nat s eq_refl). by rewrite Nat.add_0_r in Hsims. }
    split.
    { simpl. rewrite index_of_nat, Hitem. simpl.
      replace (Z.of_nat start + 1) with (Z.of_nat (S start)) by lia.
      by rewrite Hm. }
    assert (kept items excluded start
            = negb (bool_decide (ContentItem.id item ∈ excluded))) as Hk.
    { unfold kept. by rewrite Hitem. }
    simpl. rewrite filter_cons.
    destruct (bool_decide (ContentItem.id item ∈ excluded)); simpl in *.
    + rewrite decide_False by (by rewrite Hk).
      repeat split; [done|done| |done].
      eapply Forall_impl; [exact Hge|]. simpl. intros; lia.
    + rewrite decide_True by done.
      repeat split.
      * simpl. rewrite Nat2Z.id. by f_equal.
      * constructor; [|done]. unfold good. simpl. rewrite Nat2Z.id.
        repeat split; [lia|done|by eexists].
      * constructor; [simpl; lia|].
        eapply Forall_impl; [exact Hge|]. simpl. intros; lia.
      * constructor; [done|].
        eapply Forall_impl; [exact Hge|]. simpl. intros; lia.
Qed.

Lemma lookup_all_good (l : list (Z * Q)) :
  Forall good l ->
  mapM (fun '(idx, _) => py.index items idx) l
  = Ok (items_at items (map (fun e : Z * Q => Z.to_nat e.1) l)).
Proof.
  induction 1 as [|[idx sc] l (Hidx & _ & [item Hitem]) _ IH]; [done|].
  simpl in *. rewrite <- (Z2Nat.id idx) at 1 by done.
  rewrite index_of_nat, Hitem. simpl. by rewrite IH.
Qed.

(** The lines after the similarity computation return the first [k] of
    the retrieval order, whenever every similarity has its item. *)
Lemma select_top_k_spec (k : Z) :
  (length sims <= length items)%nat ->
  exists order,
    retrieval_order sims items excluded order
    /\ embeddings.select_top_k sims items k excluded
       = Ok (items_at items (py.slice_to k order)).
Proof.
  intros Hlen.
  destruct (entries_spec sims 0) as (entries & Hm & Hmap & Hgood & _ & Hsorted).
  { simpl. lia. }
  { intros i s Hi. done. }
  set (scored := omap scored_of entries) in *.
  set (sorted := py.sort_desc snd scored).
  assert (sorted ≡ₚ scored) as Hperm by apply sort_desc_perm.
  assert (Forall good sorted) as Hgood' by (by rewrite Hperm).
  exists (map (fun e : Z * Q => Z.to_nat e.1) sorted). split; [split|].
  - rewrite <- Hmap. by apply fmap_Permutation.
  - eapply StronglySorted_map_elem;
      [|apply (sort_desc_sorted snd (fun a b : Z * Q => a.1 < b.1)), Hsorted].
    rewrite Forall_forall in Hgood'.
    intros x y Hx Hy Hb.
    destruct (Hgood' x Hx) as (Hx0 & Hxs & _).
    destruct (Hgood' y Hy) as (Hy0 & Hys & _).
    unfold ranked_before, before, sim_at. rewrite Hxs, Hys. simpl.
    destruct Hb as [Hlt|[Heq Hlt]]; [by left|right]. split; [done|lia].
  - unfold embeddings.select_top_k. change (Z.of_nat 0) with 0 in Hm.
    fold entry_of. rewrite Hm. simpl. fold scored_of. fold scored. fold sorted.
    rewrite slice_to_map. apply lookup_all_good.
    apply Forall_forall. intros x Hx. rewrite Forall_forall in Hgood'.
    apply Hgood'. by apply (slice_to_subseteq k sorted) in Hx.
Qed.
End retrieval_props.

Section cosine_props.
Import schemas.
Variable sqrtQ : Q -> Q.

Lemma handle_zeros_nonzero (n : Q) :
  ~ (embeddings.handle_zeros_in_scale n == 0)%Q.
Proof.
  unfold embeddings.handle_zeros_in_scale.
  destruct (Qeq_bool n 0) eqn:E; [done|].
  intros H%Qeq_bool_iff. congruence.
Qed.

(** The guard keeps every division away from zero. *)
Lemma normalize_row_Ok (x : list Q) :
  embeddings.normalize_row sqrtQ x = Ok (normalized sqrtQ x).
Proof.
  unfold embeddings.normalize_row, normalized.
  generalize (handle_zeros_nonzero (embeddings.norm sqrtQ x)).
  generalize (embeddings.handle_zeros_in_scale (embeddings.norm sqrtQ x)).
  intros n Hn. induction x as [|a x IH]; [done|].
  cbn [mapM map]. rewrite IH. unfold embeddings.fdiv.
  destruct (Qeq_bool n 0) eqn:E; [|done].
  by apply Qeq_bool_iff in E.
Qed.

Lemma mapM_normalize_row (X : list (list Q)) :
  mapM (embeddings.normalize_row sqrtQ) X = Ok (map (normalized sqrtQ) X).
Proof.
  induction X as [|x X IH]; [done|].
  cbn [mapM map]. by rewrite normalize_row_Ok, IH.
Qed.

Lemma cosine_similarity_Ok X Y :
  embeddings.check_pairwise_arrays X Y = true ->
  embeddings.cosine_similarity sqrtQ X Y
  = Ok (map (fun x => map (cosine sqrtQ x) Y) X).
Proof.
  intros H. unfold embeddings.cosine_similarity.
  rewrite H, !mapM_normalize_row. cbn [mbind result_bind]. f_equal.
  rewrite map_map. apply map_ext. intros x. by rewrite map_map.
Qed.

Lemma retrieve_top_k_unfold u us content_embs items k exclude_ids :
  embeddings.check_pairwise_arrays (u :: us) content_embs = true ->
  embeddings.retrieve_top_k sqrtQ (u :: us) content_embs items k exclude_ids
  = embeddings.select_top_k (map (cosine sqrtQ u) content_embs) items k
      (list_to_set (default [] exclude_ids)).
Proof.
  intros H. unfold embeddings.retrieve_top_k.
  by rewrite cosine_similarity_Ok.
Qed.

Lemma dot_zero_l (x y : list Q) :
  Forall (fun a => a == 0)%Q x -> (embeddings.dot x y == 0)%Q.
Proof.
  intros Hx. revert y. induction Hx as [|a x Ha _ IH]; intros [|b y];
    try reflexivity.
  unfold embeddings.dot in *. simpl. rewrite IH, Ha. ring.
Qed.

Lemma normalized_zero (x : list Q) :
  Forall (fun a => a == 0)%Q x ->
  Forall (fun a => a == 0)%Q (normalized sqrtQ x).
Proof.
  intros Hx. unfold normalized.
  apply Forall_fmap. eapply Forall_impl; [exact Hx|].
  simpl. intros a Ha. rewrite Ha. unfold Qdiv. ring.
Qed.

Lemma cosine_zero_l (x y : list Q) :
  Forall (fun a => a == 0)%Q x -> (cosine sqrtQ x y == 0)%Q.
Proof. intros Hx. apply dot_zero_l, normalized_zero, Hx. Qed.
End cosine_props.

Section order_props.
Import schemas.
Context (sims : list Q) (items : list ContentItem.t) (excluded : gset Z).

Lemma retrieval_order_kept order i :
  retrieval_order sims items excluded order -> i ∈ order ->
  exists item, items !! i = Some item /\ ContentItem.id item ∉ excluded.
Proof.
  intros [Hperm _] Hi. rewrite Hperm in Hi.
  apply list_elem_of_filter in Hi as [Hk _]. unfold kept in Hk.
  destruct (items !! i) as [item|]; [|done].
  exists item. split; [done|]. intros Hin.
  by rewrite bool_decide_eq_true_2 in Hk.
Qed.

Lemma items_at_kept (l : list nat) :
  (forall i, i ∈ l ->
     exists item, items !! i = Some item /\ ContentItem.id item ∉ excluded) ->
  length (items_at items l) = length l
  /\ Forall (fun item => ContentItem.id item ∉ excluded) (items_at items l)
  /\ Forall2 (fun i item => items !! i = Some item) l (items_at items l).
Proof.
  induction l as [|i l IH]; intros H; simpl.
  - repeat split; constructor.
  - destruct (H i) as (item & Hi & Hex); [left|].
    destruct IH as (Hlen & Hall & Hf2); [intros j Hj; apply H; by right|].
    unfold items_at in *. simpl. rewrite Hi. simpl.
    repeat split; [by f_equal|by constructor|by constructor].
Qed.

Lemma StronglySorted_weaken {B} (R1 R2 : B -> B -> Prop) (l : list B) :
  (forall x y, R1 x y -> R2 x y) -> StronglySorted R1 l -> StronglySorted R2 l.
Proof.
  intros H. induction 1 as [|x l _ IH Hx]; constructor; [done|].
  eapply Forall_impl; [exact Hx|]. auto.
Qed.

Lemma StronglySorted_filter {B} (R : B -> B -> Prop) (P : B -> Prop)
    `{!forall x, Decision (P x)} (l : list B) :
  StronglySorted R l -> StronglySorted R (filter P l).
Proof.
  induction 1 as [|x l _ IH Hx]; [constructor|].
  rewrite filter_cons. destruct (decide (P x)); [|done].
  constructor; [done|]. rewrite Forall_forall in Hx. apply Forall_forall.
  intros y [_ Hy]%list_elem_of_filter. auto.
Qed.

Lemma StronglySorted_seq (a n : nat) : StronglySorted lt (seq a n).
Proof.
  revert a. induction n as [|n IH]; intros a; simpl; constructor; [done|].
  apply Forall_forall. intros i Hi%elem_of_seq. lia.
Qed.

(** With equal similarities throughout, the retrieval order is the
    catalogue order. *)
Lemma retrieval_order_all_equal order :
  Forall (fun s => s == 0)%Q sims ->
  retrieval_order sims items excluded order ->
  order = filter (fun i => kept items excluded i = true) (seq 0 (length sims)).
Proof.
  intros Hz [Hperm Hsorted].
  assert (forall i, sim_at sims i == 0)%Q as Hsim.
  { intros i. unfold sim_at. destruct (sims !! i) as [s|] eqn:E; [|reflexivity].
    rewrite Forall_forall in Hz. apply Hz. by eapply list_elem_of_lookup_2. }
  apply (StronglySorted_unique_strong lt); [intros; lia| | |done].
  - eapply StronglySorted_weaken; [|exact Hsorted].
    intros i j [Hlt|[_ Hlt]]; [|done].
    rewrite !Hsim in Hlt. by apply Qlt_irrefl in Hlt.
  - apply StronglySorted_filter, StronglySorted_seq.
Qed.
End order_props.

(** ** Claims about retrieval *)

(** C5 (amended to a non-negative [k]): on well-shaped inputs retrieval
    returns, and what it returns is the first [k] entries of the retrieval
    order: the candidates whose id is not excluded, sorted by cosine
    similarity descending with ties in catalogue order.  No returned item is
    excluded and the output has [min k (number kept)] items, so at most
    [k]. *)
Theorem retrieve_top_k_first_k (sqrtQ : Q -> Q) (u : list Q) (us content_embs : list (list Q))
    (items : list schemas.ContentItem.t) (k : Z) (exclude_ids : option (list Z)) :
  0 <= k ->
  embeddings.check_pairwise_arrays (u :: us) content_embs = true ->
  (length content_embs <= length items)%nat ->
  let excluded : gset Z := list_to_set (default [] exclude_ids) in
  let sims := map (cosine sqrtQ u) content_embs in
  exists order res,
    retrieval_order sims items excluded order
    /\ embeddings.retrieve_top_k sqrtQ (u :: us) content_embs items k exclude_ids
       = Ok res
    /\ Forall2 (fun i item => items !! i = Some item) (take (Z.to_nat k) order) res
    /\ Forall (fun item => schemas.ContentItem.id item ∉ excluded) res
    /\ length res = Nat.min (Z.to_nat k) (length order)
    /\ Z.of_nat (length res) <= k.
Proof.
  intros Hk Hshape Hlen excluded sims.
  destruct (select_top_k_spec sims items excluded k) as (order & Hord & Hsel).
  { unfold sims. by rewrite length_map. }
  assert (py.slice_to k order = take (Z.to_nat k) order) as Hslice.
  { unfold py.slice_to. destruct (Z.leb_spec 0 k); [done|lia]. }
  rewrite Hslice in Hsel.
  destruct (items_at_kept items excluded (take (Z.to_nat k) order))
    as (Hl & Hex & Hf2).
  { intros i Hi. eapply retrieval_order_kept; [exact Hord|].
    by apply (subseteq_take (Z.to_nat k) order). }
  exists order, (items_at items (take (Z.to_nat k) order)).
  split; [done|]. split; [by rewrite retrieve_top_k_unfold|].
  split; [done|]. split; [done|].
  rewrite Hl, length_take. split; lia.
Qed.

Lemma retrieve_top_k_first_k_witness :
  embeddings.retrieve_top_k sqrt_fixed [[3; 4]]%Q
    [[3; 4]; [4; 3]; [0; 0]; [6; 8]]%Q [item1; item2; item3; item4] 2 (Some [1])
  = Ok [item4; item2]
  /\ exists order res,
    retrieval_order (map (cosine sqrt_fixed [3; 4]%Q) [[3; 4]; [4; 3]; [0; 0]; [6; 8]]%Q)
      [item1; item2; item3; item4] (list_to_set [1]) order
    /\ embeddings.retrieve_top_k sqrt_fixed [[3; 4]]%Q
         [[3; 4]; [4; 3]; [0; 0]; [6; 8]]%Q [item1; item2; item3; item4] 2 (Some [1])
       = Ok res
    /\ Forall2 (fun i item => [item1; item2; item3; item4] !! i = Some item)
         (take (Z.to_nat 2) order) res
    /\ Forall (fun item => schemas.ContentItem.id item ∉ (list_to_set [1] : gset Z)) res
    /\ length res = Nat.min (Z.to_nat 2) (length order)
    /\ Z.of_nat (length res) <= 2.
Proof.
  split; [vm_compute; reflexivity|].
  apply (retrieve_top_k_first_k sqrt_fixed [3; 4]%Q [] [[3; 4]; [4; 3]; [0; 0]; [6; 8]]%Q
           [item1; item2; item3; item4] 2 (Some [1])).
  - lia.
  - vm_compute. reflexivity.
  - simpl. lia.
Defined.

(** C5 as stated, for every [k]: a negative [k] makes the slice drop items
    from the end, and the output is longer than [k]. *)
Lemma retrieve_top_k_negative_k :
  embeddings.retrieve_top_k sqrt_fixed [[3; 4]]%Q [[3; 4]; [4; 3]; [0; 0]]%Q
    [item1; item2; item3] (-1) None
  = Ok [item1; item2]
  /\ ~ (Z.of_nat (length [item1; item2]) <= -1).
Proof. split; [vm_compute; reflexivity|simpl; lia]. Qed.

(** C9 (amended to well-shaped inputs): with an all-zero user vector,
    candidate vectors of the user vector's positive dimension, at least one
    of them and an item for each, no row is ever divided by zero (every row,
    the zero row too, is normalised without error), the similarity to every
    candidate is zero, retrieval returns, and (all similarities being equal)
    it returns the slice [[:k]] of the non-excluded items in catalogue
    order. *)
Theorem retrieve_top_k_zero_user_vector (sqrtQ : Q -> Q) (u : list Q)
    (content_embs : list (list Q)) (items : list schemas.ContentItem.t) (k : Z)
    (exclude_ids : option (list Z)) :
  Forall (fun a => a == 0)%Q u ->
  embeddings.check_pairwise_arrays [u] content_embs = true ->
  (length content_embs <= length items)%nat ->
  let excluded : gset Z := list_to_set (default [] exclude_ids) in
  (forall x, ~ (embeddings.handle_zeros_in_scale (embeddings.norm sqrtQ x) == 0)%Q)
  /\ (forall x, is_ok (embeddings.normalize_row sqrtQ x) = true)
  /\ (exists zeros,
        embeddings.normalize_row sqrtQ u = Ok zeros
        /\ Forall (fun a => a == 0)%Q zeros)
  /\ exists sims,
    embeddings.cosine_similarity sqrtQ [u] content_embs = Ok [sims]
    /\ length sims = length content_embs
    /\ Forall (fun s => s == 0)%Q sims
    /\ embeddings.retrieve_top_k sqrtQ [u] content_embs items k exclude_ids
       = Ok (items_at items
               (py.slice_to k
                  (filter (fun i => kept items excluded i = true)
                          (seq 0 (length content_embs))))).
Proof.
  intros Hu Hshape Hlen excluded.
  split; [intros x; apply handle_zeros_nonzero|].
  split; [intros x; by rewrite normalize_row_Ok|].
  split; [exists (normalized sqrtQ u); split;
            [apply normalize_row_Ok|by apply normalized_zero]|].
  set (sims := map (cosine sqrtQ u) content_embs).
  assert (Forall (fun s => s == 0)%Q sims) as Hz.
  { apply Forall_fmap, Forall_forall. intros y _. simpl. by apply cosine_zero_l. }
  assert (length sims = length content_embs) as Hl by apply length_map.
  exists sims. split; [by rewrite cosine_similarity_Ok|].
  split; [done|]. split; [done|].
  rewrite retrieve_top_k_unfold by done. fold sims. fold excluded.
  destruct (select_top_k_spec sims items excluded k) as (order & Hord & ->);
    [lia|].
  rewrite (retrieval_order_all_equal sims items excluded order Hz Hord).
  by rewrite Hl.
Qed.

Lemma retrieve_top_k_zero_user_vector_witness :
  (forall x, ~ (embeddings.handle_zeros_in_scale (embeddings.norm sqrt_fixed x) == 0)%Q)
  /\ (forall x, is_ok (embeddings.normalize_row sqrt_fixed x) = true)
  /\ (exists zeros,
        embeddings.normalize_row sqrt_fixed [0; 0]%Q = Ok zeros
        /\ Forall (fun a => a == 0)%Q zeros)
  /\ exists sims,
    embeddings.cosine_similarity sqrt_fixed [[0; 0]]%Q [[3; 4]; [0; 0]; [4; 3]]%Q
    = Ok [sims]
    /\ length sims = length [[3; 4]; [0; 0]; [4; 3]]%Q
    /\ Forall (fun s => s == 0)%Q sims
    /\ embeddings.retrieve_top_k sqrt_fixed [[0; 0]]%Q [[3; 4]; [0; 0]; [4; 3]]%Q
         [item1; item2; item3] 5 (Some [2])
       = Ok (items_at [item1; item2; item3]
               (py.slice_to 5
                  (filter (fun i => kept [item1; item2; item3] (list_to_set [2]) i = true)
                          (seq 0 (length [[3; 4]; [0; 0]; [4; 3]]%Q))))).
Proof.
  apply (retrieve_top_k_zero_user_vector sqrt_fixed [0; 0]%Q
           [[3; 4]; [0; 0]; [4; 3]]%Q [item1; item2; item3] 5 (Some [2])).
  - repeat constructor.
  - vm_compute. reflexivity.
  - simpl. lia.
Defined.

(** C9 as stated, for every candidate set: with an all-zero user vector
    retrieval raises when there is no candidate at all, when the candidate
    vectors have another dimension than the user vector, and when there are
    more candidate vectors than items. *)
Lemma retrieve_top_k_zero_user_vector_raises :
  embeddings.retrieve_top_k sqrt_fixed [[0; 0]]%Q [] [] 5 None
  = Raise ValueError
  /\ embeddings.retrieve_top_k sqrt_fixed [[0; 0]]%Q [[3; 4; 5]]%Q [item1] 5 None
     = Raise ValueError
  /\ embeddings.retrieve_top_k sqrt_fixed [[0; 0]]%Q [[3; 4]; [4; 3]]%Q [item1]
       5 None
     = Raise IndexError.
Proof. repeat split; vm_compute; reflexivity. Qed.

Example zero_user_vector_catalogue_order :
  embeddings.retrieve_top_k sqrt_fixed [[0; 0]]%Q [[3; 4]; [0; 0]; [4; 3]]%Q
    [item1; item2; item3] 5 (Some [2])
  = Ok [item1; item3].
Proof. vm_compute. reflexivity. Qed.

(** ** Extraction of the JSON array *)

Section extraction_props.
Import llm_ranker.

Lemma append_cons c (p q : string) : String c p +:+ q = String c (p +:+ q).
Proof. reflexivity. Qed.

Lemma append_nil_l (q : string) : "" +:+ q = q.
Proof. reflexivity. Qed.

Lemma substring_prefix (p q : string) :
  String.substring 0 (String.length p) (p +:+ q) = p.
Proof.
  induction p as [|c p IH].
  - by destruct q.
  - rewrite append_cons. cbn [String.length String.substring].
    by rewrite IH.
Qed.

Lemma substring_split (n : nat) (s : string) :
  (n <= String.length s)%nat ->
  exists q, s = String.substring 0 n s +:+ q
            /\ String.length (String.substring 0 n s) = n.
Proof.
  revert s. induction n as [|n IH]; intros s Hn.
  - exists s. by destruct s.
  - destruct s as [|c s]; simpl in *; [lia|].
    destruct (IH s) as (q & Hq & Hl); [lia|].
    exists q. rewrite append_cons. split; [by rewrite <- Hq|by rewrite Hl].
Qed.

Let step (c : ascii) (d : Z) : Z :=
  if Ascii.eqb c "["%char then d + 1
  else if Ascii.eqb c "]"%char then d - 1 else d.

Lemma depth_of_cons c r : depth_of (String c r) = step c 0 + depth_of r.
Proof. unfold step. simpl. repeat case_match; lia. Qed.

Lemma step_shift c d : step c d = d + step c 0.
Proof. unfold step. repeat case_match; lia. Qed.

(** [close_at] finds the shortest non-empty prefix that brings the depth
    back to zero. *)
Lemma close_at_Some d s n :
  close_at d s = Some n ->
  exists p q, s = p +:+ q /\ String.length p = n /\ p <> ""
    /\ d + depth_of p = 0
    /\ forall p1 p2, p = p1 +:+ p2 -> p1 <> "" -> p2 <> "" ->
                     d + depth_of p1 <> 0.
Proof.
  revert d n. induction s as [|c s IH]; intros d n; simpl; [done|].
  fold (step c d).
  destruct (Z.eqb_spec (step c d) 0) as [H0|Hne].
  - intros [= <-]. exists (String c ""), s.
    split; [done|]. split; [done|]. split; [done|]. split.
    + rewrite depth_of_cons. simpl. rewrite step_shift in H0. lia.
    + intros [|c1 p1] p2 Hp; [done|]. rewrite append_cons in Hp.
      injection Hp as _ Hp. destruct p1; [|done]. simpl in Hp. by subst.
  - destruct (close_at (step c d) s) as [m|] eqn:E; [|done].
    intros [= <-]. destruct (IH _ _ E) as (p & q & -> & Hl & Hp & Hd & Hmin).
    exists (String c p), q. rewrite step_shift in Hd, Hne.
    split; [done|]. split; [simpl; by rewrite Hl|]. split; [done|]. split.
    + rewrite depth_of_cons. lia.
    + intros [|c1 p1] p2 Heq Hp1 Hp2; [done|]. rewrite append_cons in Heq.
      injection Heq as <- ->. rewrite depth_of_cons.
      destruct p1 as [|c2 p1].
      * simpl. lia.
      * specialize (Hmin (String c2 p1) p2 eq_refl).
        rewrite (step_shift c d) in Hmin.
        assert (d + step c 0 + depth_of (String c2 p1) <> 0); [|lia].
        apply Hmin; [done|]. by intros ->.
Qed.

Lemma close_at_shortest d p q :
  p <> "" -> d + depth_of p = 0 ->
  (forall p1 p2, p = p1 +:+ p2 -> p1 <> "" -> p2 <> "" ->
                 d + depth_of p1 <> 0) ->
  close_at d (p +:+ q) = Some (String.length p).
Proof.
  revert d. induction p as [|c p IH]; intros d Hp Hd Hmin; [done|].
  rewrite append_cons. simpl. fold (step c d).
  rewrite depth_of_cons in Hd.
  destruct p as [|c' p].
  - simpl in Hd. rewrite step_shift.
    destruct (Z.eqb_spec (d + step c 0) 0); [done|lia].
  - assert (step c d <> 0) as Hne.
    { rewrite step_shift. specialize (Hmin (String c "") (String c' p) eq_refl).
      rewrite depth_of_cons in Hmin. simpl in Hmin.
      assert (d + (step c 0 + 0) <> 0) by (apply Hmin; done). lia. }
    destruct (Z.eqb_spec (step c d) 0); [done|].
    rewrite IH; [done|done| |].
    + rewrite step_shift. lia.
    + intros p1 p2 Heq Hp1 Hp2.
      specialize (Hmin (String c p1) p2). rewrite append_cons in Hmin.
      rewrite depth_of_cons in Hmin. rewrite step_shift.
      assert (d + (step c 0 + depth_of p1) <> 0); [|lia].
      apply Hmin; [by rewrite Heq|done|done].
Qed.
End extraction_props.

Section extraction_main.
Import llm_ranker.

Lemma consider_cases best span :
  (consider best span = best
   \/ valid_array span (consider best span)
      /\ (length best < length (consider best span))%nat)
  /\ (length best <= length (consider best span))%nat
  /\ forall l, valid_array span l ->
               (length l <= length (consider best span))%nat.
Proof.
  unfold consider, valid_array.
  destruct (json.loads span) as [[| | | | | |parsed|]|e]; simpl;
    try (split; [by left|]; split; [lia|]; by intros l [? _]).
  destruct (Nat.ltb_spec (length best) (length parsed)) as [Hlt|Hge]; simpl.
  - destruct (forallb json.is_dict parsed) eqn:E.
    + split; [by right|]. split; [lia|]. intros l [[= <-] _]. lia.
    + split; [by left|]. split; [lia|]. intros l [[= <-] Hl]. congruence.
  - split; [by left|]. split; [lia|]. intros l [[= <-] _]. lia.
Qed.

Lemma balanced_prefix_close (span post : string) :
  balanced span ->
  close_at 0 (span +:+ post) = Some (String.length span).
Proof.
  intros ([r ->] & Hd & Hmin). apply close_at_shortest; [done|lia|].
  intros p1 p2 Heq Hp1 Hp2. specialize (Hmin p1 p2 Heq Hp1 Hp2). lia.
Qed.

Lemma close_balanced (c : ascii) (r : string) (n : nat) :
  Ascii.eqb c "["%char = true ->
  close_at 0 (String c r) = Some n ->
  balanced (String.substring 0 n (String c r))
  /\ exists post, String c r = String.substring 0 n (String c r) +:+ post.
Proof.
  intros Hc%Ascii.eqb_eq Hn. subst c.
  destruct (close_at_Some _ _ _ Hn) as (p & q & Heq & Hl & Hp & Hd & Hmin).
  assert (String.substring 0 n (String "["%char r) = p) as ->.
  { rewrite Heq, <- Hl. apply substring_prefix. }
  split; [|by exists q].
  destruct p as [|c p]; [done|]. rewrite append_cons in Heq.
  injection Heq as <- _.
  split; [by eexists|]. split; [lia|].
  intros p1 p2 E Hp1 Hp2. specialize (Hmin p1 p2 E Hp1 Hp2). lia.
Qed.

Lemma occurs_in_cons span c r : occurs_in span r -> occurs_in span (String c r).
Proof. intros (pre & post & ->). by exists (String c pre), post. Qed.

Lemma scan_from_cons ch r best :
  scan_from (String ch r) best
  = scan_from r
      (if Ascii.eqb ch "["%char then
         match close_at 0 (String ch r) with
         | Some n => consider best (String.substring 0 n (String ch r))
         | None => best
         end
       else best).
Proof. reflexivity. Qed.

(** The loop invariant of the outer scan. *)
Lemma scan_from_spec (s : string) (best : list json.value) :
  let res := scan_from s best in
  (length best <= length res)%nat
  /\ (res = best
      \/ exists span, occurs_in span s /\ balanced span /\ valid_array span res)
  /\ forall span l, occurs_in span s -> balanced span -> valid_array span l ->
                    (length l <= length res)%nat.
Proof.
  revert best. induction s as [|ch r IH]; intros best.
  - simpl. split; [done|]. split; [by left|].
    intros span l (pre & post & Heq) ([r' ->] & _) _.
    destruct pre; discriminate.
  - cbv zeta. rewrite scan_from_cons.
    set (best' := if Ascii.eqb ch "["%char then _ else best).
    destruct (IH best') as (Hlen & Hfrom & Hmax).
    assert ((length best <= length best')%nat
            /\ (best' = best
                \/ exists span, occurs_in span (String ch r) /\ balanced span
                                /\ valid_array span best')
            /\ forall span post l, String ch r = span +:+ post ->
                 balanced span -> valid_array span l ->
                 (length l <= length best')%nat) as (Hlen' & Hfrom' & Hmax').
    { subst best'. destruct (Ascii.eqb ch "["%char) eqn:Ech.
      - destruct (close_at 0 (String ch r)) as [n|] eqn:En.
        + cbv beta iota.
          destruct (close_balanced _ _ _ Ech En) as (Hbal & post0 & Hpost0).
          destruct (consider_cases best (String.substring 0 n (String ch r)))
            as (Hc & Hl & Hm).
          split; [done|]. split.
          * destruct Hc as [->|[Hv _]]; [by left|right].
            eexists. split; [|done]. by exists "", post0.
          * intros span post l Heq Hb Hv.
            pose proof (balanced_prefix_close span post Hb) as Hcl.
            rewrite <- Heq, En in Hcl. injection Hcl as ->.
            apply Hm. by rewrite Heq, substring_prefix.
        + cbv beta iota. split; [done|]. split; [by left|].
          intros span post l Heq Hb _.
          pose proof (balanced_prefix_close span post Hb) as Hcl.
          rewrite <- Heq, En in Hcl. done.
      - split; [done|]. split; [by left|].
        intros span post l Heq ([r' ->] & _) _. rewrite append_cons in Heq.
        injection Heq as -> _. done. }
    split; [lia|]. split.
    + destruct Hfrom as [->|(span & Hocc & Hb & Hv)].
      * destruct Hfrom' as [->|Hex]; [by left|by right].
      * right. exists span. split; [by apply occurs_in_cons|done].
    + intros span l (pre & post & Heq) Hb Hv.
      destruct pre as [|c pre].
      * rewrite append_nil_l in Heq.
        specialize (Hmax' span post l Heq Hb Hv). lia.
      * rewrite append_cons in Heq. injection Heq as _ Heq.
        apply (Hmax span l); [by exists pre, post|done|done].
Qed.
End extraction_main.

(** C4: for every text, the extracted list is empty or the decoding of a
    balanced span of the text all of whose elements are objects, and no
    balanced span of the text decodes to a longer list of objects; so of a
    two-element and a three-element array in a text, in either order, the
    three-element one is returned. *)
Theorem extract_json_array_longest (raw : string) :
  let best := llm_ranker._extract_json_array raw in
  (best = []
   \/ exists span, occurs_in span raw /\ balanced span /\ valid_array span best)
  /\ (forall span l, occurs_in span raw -> balanced span -> valid_array span l ->
                     (length l <= length best)%nat)
  /\ llm_ranker._extract_json_array
       (quoted "Sure: [{'id': 1}, {'id': 2}] or rather [{'id': 3}, {'id': 4}, {'id': 5}].")
     = [json.Object [("id", json.Int 3)]; json.Object [("id", json.Int 4)];
        json.Object [("id", json.Int 5)]]
  /\ llm_ranker._extract_json_array
       (quoted "[{'id': 3}, {'id': 4}, {'id': 5}] (not [{'id': 1}, {'id': 2}])")
     = [json.Object [("id", json.Int 3)]; json.Object [("id", json.Int 4)];
        json.Object [("id", json.Int 5)]].
Proof.
  destruct (scan_from_spec raw []) as (_ & Hfrom & Hmax).
  split; [exact Hfrom|]. split; [exact Hmax|].
  split; vm_compute; reflexivity.
Qed.

(** ** Mapping the remote ranker's output *)

Section parse_props.
Import schemas llm_ranker.

Lemma validate_str_list_tags (l : list string) :
  validate_str_list (json_tags l) = Ok l.
Proof.
  unfold validate_str_list, json_tags.
  induction l as [|x l IH]; simpl; [done|]. by rewrite IH.
Qed.

(** What a successful construction says about its arguments. *)
Lemma Recommendation_new_Ok rank id title format difficulty duration tags
    explanation score r :
  Recommendation.new rank id title format difficulty duration tags explanation
    score = Ok r ->
  Recommendation.rank r = rank /\ 1 <= rank
  /\ validate_int id = Ok (Recommendation.id r)
  /\ validate_str title = Ok (Recommendation.title r)
  /\ validate_str format = Ok (Recommendation.format r)
  /\ validate_str difficulty = Ok (Recommendation.difficulty r)
  /\ validate_int duration = Ok (Recommendation.duration_minutes r)
  /\ validate_str_list tags = Ok (Recommendation.tags r)
  /\ validate_str explanation = Ok (Recommendation.explanation r)
  /\ Recommendation.match_score r = score.
Proof.
  unfold Recommendation.new. intros H.
  apply bind_Ok in H as (rank' & Hrank & H).
  apply bind_Ok in H as (id' & Hid & H).
  apply bind_Ok in H as (title' & Htitle & H).
  apply bind_Ok in H as (format' & Hformat & H).
  apply bind_Ok in H as (difficulty' & Hdiff & H).
  apply bind_Ok in H as (duration' & Hdur & H).
  apply bind_Ok in H as (tags' & Htags & H).
  apply bind_Ok in H as (expl' & Hexpl & H).
  apply bind_Ok in H as (score' & Hscore & H).
  injection H as <-. simpl.
  destruct (Z.leb_spec 1 rank); [|done]. injection Hrank as <-.
  repeat split; try done.
  destruct score as [q|]; [|by injection Hscore as <-].
  destruct (Qle_bool 0 q && Qle_bool q 1); [|done]. by injection Hscore as <-.
Qed.

Lemma recommendation_of_Ok cand_map idx item r :
  recommendation_of cand_map (idx, item) = Ok r ->
  exists kvs fallback,
    item = json.Object kvs
    /\ Recommendation.rank r = idx
    /\ cand_map_get cand_map (default json.Null (json.lookup "id" kvs))
       = Ok fallback
    /\ (json.lookup "title" kvs = None ->
        Recommendation.title r
        = match fallback with Some c => ContentItem.title c | None => "" end)
    /\ (json.lookup "format" kvs = None ->
        Recommendation.format r
        = match fallback with
          | Some c => ContentFormat_value (ContentItem.format c)
          | None => ""
          end)
    /\ (json.lookup "difficulty" kvs = None ->
        Recommendation.difficulty r
        = match fallback with
          | Some c => Difficulty_value (ContentItem.difficulty c)
          | None => ""
          end)
    /\ (json.lookup "duration_minutes" kvs = None ->
        Recommendation.duration_minutes r
        = match fallback with
          | Some c => ContentItem.duration_minutes c
          | None => 0
          end)
    /\ (json.lookup "tags" kvs = None ->
        Recommendation.tags r
        = match fallback with Some c => ContentItem.tags c | None => [] end)
    /\ (json.lookup "explanation" kvs = None ->
        Recommendation.explanation r = "Recommended based on your profile.").
Proof.
  unfold recommendation_of. intros H.
  destruct item as [| | | | | | |kvs]; try done.
  apply bind_Ok in H as (cid & [= <-] & H).
  apply bind_Ok in H as (fallback & Hfb & H).
  apply bind_Ok in H as (title & [= <-] & H).
  apply bind_Ok in H as (format & [= <-] & H).
  apply bind_Ok in H as (difficulty & [= <-] & H).
  apply bind_Ok in H as (duration & [= <-] & H).
  apply bind_Ok in H as (tags & [= <-] & H).
  apply bind_Ok in H as (explanation & [= <-] & H).
  apply Recommendation_new_Ok in H
    as (Hrank & _ & _ & Ht & Hf & Hd & Hdur & Htags & Hexpl & _).
  exists kvs, fallback. split; [done|]. split; [done|].
  split; [by destruct (json.lookup "id" kvs)|].
  repeat split; intros Hnone; rewrite Hnone in *; cbv iota in *.
  - simpl in Ht. injection Ht as <-. by destruct fallback.
  - simpl in Hf. injection Hf as <-. by destruct fallback.
  - simpl in Hd. injection Hd as <-. by destruct fallback.
  - simpl in Hdur. injection Hdur as <-. by destruct fallback.
  - rewrite validate_str_list_tags in Htags. injection Htags as <-.
    by destruct fallback.
  - simpl in Hexpl. by injection Hexpl as <-.
Qed.
End parse_props.

Section parse_list_props.
Import schemas llm_ranker.

Lemma enumerate_length {A} (start : Z) (l : list A) :
  length (py.enumerate start l) = length l.
Proof. revert start. induction l; intros; simpl; auto. Qed.

Lemma enumerate_lookup {A} (start : Z) (l : list A) (i : nat) :
  py.enumerate start l !! i = (fun x => (start + Z.of_nat i, x)) <$> l !! i.
Proof.
  revert start i. induction l as [|x l IH]; intros start [|i]; simpl; try done.
  - by rewrite Z.add_0_r.
  - rewrite IH. destruct (l !! i); simpl; [|done]. do 2 f_equal. lia.
Qed.

Lemma slice_to_3_length {A} (l : list A) :
  length (py.slice_to 3 l) = Nat.min 3 (length l).
Proof.
  unfold py.slice_to. change (0 <=? 3) with true. cbv iota.
  change (Z.to_nat 3) with 3%nat. apply length_take.
Qed.

Lemma slice_to_3_lookup {A} (l : list A) (i : nat) x :
  py.slice_to 3 l !! i = Some x -> l !! i = Some x /\ (i < 3)%nat.
Proof.
  unfold py.slice_to. change (0 <=? 3) with true. cbv iota.
  change (Z.to_nat 3) with 3%nat. intros H. destruct (decide (i < 3)%nat).
  - by rewrite lookup_take_lt in H.
  - by rewrite lookup_take_ge in H by lia.
Qed.

(** The dictionary of candidates holds, for an id, the last candidate
    carrying it. *)
Lemma cand_map_of_lookup (candidates : list ContentItem.t) (n : Z) :
  cand_map_of candidates !! n
  = last (filter (fun c => ContentItem.id c = n) candidates).
Proof.
  unfold cand_map_of.
  induction candidates as [|c l IH] using rev_ind; [done|].
  rewrite foldl_app, filter_app. simpl. rewrite filter_cons, filter_nil.
  destruct (decide (ContentItem.id c = n)) as [<-|Hne].
  - by rewrite lookup_insert_eq, last_snoc.
  - rewrite lookup_insert_ne by done. by rewrite app_nil_r.
Qed.

Lemma Qeq_bool_inject_Z (q : Q) (n : Z) :
  Qeq_bool q (inject_Z n) = true
  <-> Qeq_bool (inject_Z (Qfloor q)) q = true /\ Qfloor q = n.
Proof.
  rewrite !Qeq_bool_iff. split.
  - intros H. pose proof (Qfloor_comp _ _ H) as Hf. rewrite Qfloor_Z in Hf.
    split; [|done]. rewrite Hf. by symmetry.
  - intros [H <-]. by symmetry.
Qed.

Lemma filter_none {A} (P : A -> Prop) `{!forall x, Decision (P x)} (l : list A) :
  (forall x, ~ P x) -> filter P l = [].
Proof.
  intros Hno. induction l as [|x l IH]; [done|].
  rewrite filter_cons. by destruct (decide (P x)); [destruct (Hno x)|].
Qed.

Lemma cand_map_get_matching candidates cid fallback :
  cand_map_get (cand_map_of candidates) cid = Ok fallback ->
  fallback = matching_candidate cid candidates.
Proof.
  unfold cand_map_get, matching_candidate.
  destruct cid as [|b|n|q| |s|l|kvs]; simpl; try done.
  - intros [= <-]. by rewrite filter_none.
  - intros [= <-]. rewrite cand_map_of_lookup. f_equal.
    apply list_filter_iff. intros c. by rewrite Z.eqb_eq.
  - intros [= <-]. rewrite cand_map_of_lookup. f_equal.
    apply list_filter_iff. intros c. by rewrite Z.eqb_eq.
  - destruct (Qeq_bool (inject_Z (Qfloor q)) q) eqn:E; intros [= <-].
    + rewrite cand_map_of_lookup. f_equal. apply list_filter_iff. intros c.
      rewrite Qeq_bool_inject_Z. split; [by intros ->|by intros [_ ->]].
    + rewrite filter_none; [done|]. intros c.
      rewrite Qeq_bool_inject_Z. intros [? _]. congruence.
  - intros [= <-]. by rewrite filter_none.
  - intros [= <-]. by rewrite filter_none.
Qed.
End parse_list_props.

Section rank_props.
Import schemas llm_ranker.

Lemma lookup_without_rank (k : string) (kvs : list (string * json.value)) :
  k <> "rank" ->
  json.lookup k (filter (fun kv : string * json.value => kv.1 <> "rank") kvs)
  = json.lookup k kvs.
Proof.
  intros Hk. induction kvs as [|[k' v] kvs IH]; [done|].
  rewrite filter_cons. simpl. destruct (decide (k' <> "rank")) as [Hne|Heq].
  - simpl. by rewrite IH.
  - rewrite IH. apply dec_stable in Heq. subst k'.
    destruct (json.lookup k kvs); [done|].
    by destruct (String.eqb_spec k "rank").
Qed.

Lemma recommendation_of_without_rank cand_map idx item :
  recommendation_of cand_map (idx, without_rank item)
  = recommendation_of cand_map (idx, item).
Proof.
  destruct item as [| | | | | | |kvs]; try done.
  unfold recommendation_of, without_rank, dict_get.
  by rewrite !lookup_without_rank by done.
Qed.

Lemma mapM_without_rank cand_map start items :
  mapM (recommendation_of cand_map) (py.enumerate start (map without_rank items))
  = mapM (recommendation_of cand_map) (py.enumerate start items).
Proof.
  revert start. induction items as [|item items IH]; intros start; [done|].
  cbn [map py.enumerate mapM].
  by rewrite recommendation_of_without_rank, IH.
Qed.

Lemma parse_without_rank raw raw' candidates :
  map without_rank (_extract_json_array raw')
  = map without_rank (_extract_json_array raw) ->
  _parse_llm_response raw' candidates = _parse_llm_response raw candidates.
Proof.
  unfold _parse_llm_response. intros H.
  destruct (_extract_json_array raw) as [|x l] eqn:E,
           (_extract_json_array raw') as [|x' l'] eqn:E'; try done.
  rewrite <- (mapM_without_rank _ _ (py.slice_to 3 (x :: l))).
  rewrite <- (mapM_without_rank _ _ (py.slice_to 3 (x' :: l'))).
  by rewrite <- !slice_to_map, H.
Qed.

Lemma parse_Ok_lookup raw candidates recs i r :
  _parse_llm_response raw candidates = Ok recs -> recs !! i = Some r ->
  exists item,
    _extract_json_array raw !! i = Some item /\ (i < 3)%nat
    /\ recommendation_of (cand_map_of candidates) (Z.of_nat i + 1, item) = Ok r.
Proof.
  unfold _parse_llm_response. intros H Hi.
  destruct (_extract_json_array raw) as [|x l] eqn:E; [done|].
  destruct (mapM_Ok_lookup _ _ _ _ _ H Hi) as ([idx item] & Hl & Hr).
  rewrite enumerate_lookup in Hl.
  destruct (py.slice_to 3 (x :: l) !! i) as [item'|] eqn:Es; [|done].
  injection Hl as <- <-. apply slice_to_3_lookup in Es as [Hx Hlt].
  exists item'. split; [done|]. split; [done|].
  by replace (Z.of_nat i + 1) with (1 + Z.of_nat i) by lia.
Qed.
End rank_props.

(** C7: when the remote ranker's output is mapped, one record is built for
    each of the first three extracted objects and no more; the record at
    position [i] (from zero) has rank [i + 1]; and the outcome is the same
    for any text whose extracted objects differ only in their [rank]
    entries. *)
Theorem parse_llm_response_rank_by_position (raw : string)
    (candidates : list schemas.ContentItem.t) (recs : list schemas.Recommendation.t) :
  llm_ranker._parse_llm_response raw candidates = Ok recs ->
  length recs = Nat.min 3 (length (llm_ranker._extract_json_array raw))
  /\ (length recs <= 3)%nat
  /\ (forall i r, recs !! i = Some r ->
        schemas.Recommendation.rank r = Z.of_nat i + 1
        /\ exists item,
             llm_ranker._extract_json_array raw !! i = Some item
             /\ llm_ranker.recommendation_of (llm_ranker.cand_map_of candidates)
                  (Z.of_nat i + 1, item) = Ok r)
  /\ (forall raw',
        map without_rank (llm_ranker._extract_json_array raw')
        = map without_rank (llm_ranker._extract_json_array raw) ->
        llm_ranker._parse_llm_response raw' candidates = Ok recs).
Proof.
  intros H.
  assert (length recs = Nat.min 3 (length (llm_ranker._extract_json_array raw)))
    as Hlen.
  { unfold llm_ranker._parse_llm_response in H.
    destruct (llm_ranker._extract_json_array raw) as [|x l]; [done|].
    apply mapM_Ok_length in H.
    by rewrite H, enumerate_length, slice_to_3_length. }
  split; [done|]. split; [lia|]. split.
  - intros i r Hi.
    destruct (parse_Ok_lookup _ _ _ _ _ H Hi) as (item & Hitem & _ & Hr).
    split; [|by exists item].
    by destruct (recommendation_of_Ok _ _ _ _ Hr) as (? & ? & _ & ? & _).
  - intros raw' Heq. by rewrite (parse_without_rank raw raw').
Qed.

Lemma parse_llm_response_rank_by_position_witness :
  exists recs,
    llm_ranker._parse_llm_response
      (quoted ("[{'rank': 3, 'id': 9}, {'rank': 1, 'id': 4, 'title': 'MLOps'}, "
               +:+ "{'rank': 2, 'id': 10}, {'rank': 4, 'id': 3}]"))
      [item9; item4; item3; item5; item10] = Ok recs
    /\ map schemas.Recommendation.rank recs = [1; 2; 3]
    /\ map schemas.Recommendation.id recs = [9; 4; 10]
    /\ length recs
       = Nat.min 3 (length (llm_ranker._extract_json_array
           (quoted ("[{'rank': 3, 'id': 9}, {'rank': 1, 'id': 4, 'title': 'MLOps'}, "
                    +:+ "{'rank': 2, 'id': 10}, {'rank': 4, 'id': 3}]")))).
Proof.
  eexists. split; [vm_compute; reflexivity|].
  split; [reflexivity|]. split; [reflexivity|].
  refine (proj1 (parse_llm_response_rank_by_position _
                   [item9; item4; item3; item5; item10] _ _)).
  vm_compute. reflexivity.
Defined.

(** C8 (amended in the explanation): for each record built from an
    extracted object, a missing title, format, difficulty, duration or tag
    list is taken from the candidate whose id matches the object's id, and
    is the empty string, zero or the empty list when no candidate matches;
    a missing explanation is always the fixed sentence. *)
Theorem parse_llm_response_backfill (raw : string)
    (candidates : list schemas.ContentItem.t)
    (recs : list schemas.Recommendation.t) (i : nat) (r : schemas.Recommendation.t) :
  llm_ranker._parse_llm_response raw candidates = Ok recs ->
  recs !! i = Some r ->
  exists kvs,
    llm_ranker._extract_json_array raw !! i = Some (json.Object kvs)
    /\ let fallback :=
         matching_candidate (default json.Null (json.lookup "id" kvs)) candidates in
       (json.lookup "title" kvs = None ->
        schemas.Recommendation.title r
        = match fallback with
          | Some c => schemas.ContentItem.title c
          | None => ""
          end)
       /\ (json.lookup "format" kvs = None ->
           schemas.Recommendation.format r
           = match fallback with
             | Some c => schemas.ContentFormat_value (schemas.ContentItem.format c)
             | None => ""
             end)
       /\ (json.lookup "difficulty" kvs = None ->
           schemas.Recommendation.difficulty r
           = match fallback with
             | Some c => schemas.Difficulty_value (schemas.ContentItem.difficulty c)
             | None => ""
             end)
       /\ (json.lookup "duration_minutes" kvs = None ->
           schemas.Recommendation.duration_minutes r
           = match fallback with
             | Some c => schemas.ContentItem.duration_minutes c
             | None => 0
             end)
       /\ (json.lookup "tags" kvs = None ->
           schemas.Recommendation.tags r
           = match fallback with
             | Some c => schemas.ContentItem.tags c
             | None => []
             end)
       /\ (json.lookup "explanation" kvs = None ->
           schemas.Recommendation.explanation r
           = "Recommended based on your profile.").
Proof.
  intros H Hi.
  destruct (parse_Ok_lookup _ _ _ _ _ H Hi) as (item & Hitem & _ & Hr).
  destruct (recommendation_of_Ok _ _ _ _ Hr)
    as (kvs & fallback & -> & _ & Hfb & Hrest).
  apply cand_map_get_matching in Hfb. subst fallback.
  exists kvs. split; [done|]. exact Hrest.
Qed.

Lemma parse_llm_response_backfill_witness :
  llm_ranker._parse_llm_response
    (quoted "[{'id': 9, 'title': 'Deploying on AWS'}, {'id': 77}]")
    [item9; item4]
  = Ok [schemas.Recommendation.mk 1 9 "Deploying on AWS" "lecture" "Advanced" 55
          ["aws"; "sagemaker"; "deployment"; "ml"]
          "Recommended based on your profile." None;
        schemas.Recommendation.mk 2 77 "" "" "" 0 []
          "Recommended based on your profile." None]
  /\ exists kvs,
    llm_ranker._extract_json_array
      (quoted "[{'id': 9, 'title': 'Deploying on AWS'}, {'id': 77}]") !! 0%nat
    = Some (json.Object kvs)
    /\ (json.lookup "tags" kvs = None ->
        schemas.Recommendation.tags
          (schemas.Recommendation.mk 1 9 "Deploying on AWS" "lecture" "Advanced" 55
             ["aws"; "sagemaker"; "deployment"; "ml"]
             "Recommended based on your profile." None)
        = match matching_candidate (default json.Null (json.lookup "id" kvs))
                  [item9; item4] with
          | Some c => schemas.ContentItem.tags c
          | None => []
          end).
Proof.
  split; [vm_compute; reflexivity|].
  destruct (parse_llm_response_backfill
              (quoted "[{'id': 9, 'title': 'Deploying on AWS'}, {'id': 77}]")
              [item9; item4] _ 0%nat _ ltac:(vm_compute; reflexivity) eq_refl)
    as (kvs & Hk & _ & _ & _ & _ & Ht & _).
  exists kvs. split; [exact Hk|exact Ht].
Defined.

(** C8 as stated, for the explanation: an object without explanation whose
    id matches no candidate does not get an empty explanation. *)
Lemma parse_llm_response_explanation_not_empty :
  exists r,
    llm_ranker._parse_llm_response (quoted "[{'id': 77}]") [item9; item4] = Ok [r]
    /\ matching_candidate (json.Int 77) [item9; item4] = None
    /\ schemas.Recommendation.explanation r = "Recommended based on your profile."
    /\ schemas.Recommendation.explanation r <> "".
Proof.
  eexists. split; [vm_compute; reflexivity|].
  split; [vm_compute; reflexivity|]. split; [reflexivity|]. simpl. discriminate.
Qed.

(** ** The rule-based path *)

Section rule_based_props.
Import schemas llm_ranker.

(** The range the [match_score] field allows. *)
Let in_range (q : Q) : bool := Qle_bool 0 q && Qle_bool q 1.

Lemma scored_of_elem profile candidates s item :
  (s, item) ∈ scored_of profile candidates
  <-> item ∈ candidates /\ eligible profile item = true
      /\ s = score_of profile item.
Proof.
  unfold scored_of. rewrite list_elem_of_omap. split.
  - intros (c & Hc & Hs). destruct (eligible profile c) eqn:E; [|done].
    by injection Hs as <- <-.
  - intros (Hc & He & ->). exists item. by rewrite He.
Qed.

Lemma scored_of_length profile candidates :
  length (scored_of profile candidates)
  = length (filter (fun c => eligible profile c = true) candidates).
Proof.
  unfold scored_of. induction candidates as [|c l IH]; [done|].
  rewrite filter_cons. cbn [omap list_omap].
  destruct (eligible profile c); simpl; [f_equal|]; exact IH.
Qed.

Lemma pick_of_cases profile rank score item :
  1 <= rank ->
  pick_of profile (rank, (score, item))
  = if in_range (py.round3 score) then
      Ok (Recommendation.mk rank (ContentItem.id item) (ContentItem.title item)
            (ContentFormat_value (ContentItem.format item))
            (Difficulty_value (ContentItem.difficulty item))
            (ContentItem.duration_minutes item) (ContentItem.tags item)
            (explanation_of profile item) (Some (py.round3 score)))
    else Raise ValidationError.
Proof.
  intros Hrank. unfold pick_of, Recommendation.new, in_range.
  rewrite validate_str_list_tags.
  destruct (Z.leb_spec 1 rank); [|lia]. simpl.
  by destruct (Qle_bool 0 (py.round3 score) && Qle_bool (py.round3 score) 1).
Qed.

Lemma enumerate_elem {A} (start : Z) (l : list A) (i : Z) (x : A) :
  (i, x) ∈ py.enumerate start l -> start <= i /\ x ∈ l.
Proof.
  intros (n & Hn)%list_elem_of_lookup_1. rewrite enumerate_lookup in Hn.
  destruct (l !! n) as [y|] eqn:E; [|done]. injection Hn as <- <-.
  split; [lia|]. by eapply list_elem_of_lookup_2.
Qed.

Lemma picks_elem profile candidates s item :
  (s, item) ∈ picks profile candidates ->
  item ∈ candidates /\ eligible profile item = true /\ s = score_of profile item.
Proof.
  intros H%slice_to_subseteq. rewrite sort_desc_perm in H.
  by apply scored_of_elem.
Qed.

Lemma picks_length profile candidates :
  length (picks profile candidates)
  = Nat.min 3 (length (filter (fun c => eligible profile c = true) candidates)).
Proof.
  unfold picks. by rewrite slice_to_3_length, sort_desc_length, scored_of_length.
Qed.

(** The path returns exactly when the rounded score of every pick lies
    between zero and one. *)
Lemma rule_based_rerank_returns profile candidates :
  Forall (fun e : Q * ContentItem.t => in_range (py.round3 e.1) = true)
         (picks profile candidates) ->
  exists r, _rule_based_rerank profile candidates = Ok r.
Proof.
  intros Hall. unfold _rule_based_rerank. fold (picks profile candidates).
  destruct (mapM_all_Ok (pick_of profile)
              (py.enumerate 1 (picks profile candidates))) as [recs ->].
  - intros [rank [s item]] [Hrank Hin]%list_elem_of_In%enumerate_elem.
    rewrite pick_of_cases by done.
    rewrite Forall_forall in Hall. specialize (Hall _ Hin). simpl in Hall.
    rewrite Hall. eauto.
  - simpl. eauto.
Qed.

Lemma rule_based_rerank_raises profile candidates s item :
  (s, item) ∈ picks profile candidates ->
  in_range (py.round3 s) = false ->
  exists e, _rule_based_rerank profile candidates = Raise e.
Proof.
  intros Hin Hout. unfold _rule_based_rerank. fold (picks profile candidates).
  apply list_elem_of_lookup_1 in Hin as [n Hn].
  destruct (mapM_Raise (pick_of profile)
              (py.enumerate 1 (picks profile candidates))
              (1 + Z.of_nat n, (s, item)) ValidationError) as [e ->].
  - apply list_elem_of_In. eapply list_elem_of_lookup_2.
    rewrite enumerate_lookup, Hn. done.
  - rewrite pick_of_cases by lia. by rewrite Hout.
  - simpl. eauto.
Qed.

(** What the path returns when it returns. *)
Lemma rule_based_rerank_Ok profile candidates r :
  _rule_based_rerank profile candidates = Ok r ->
  method r = "rule-based"
  /\ length (recommendations r)
     = Nat.min 3 (length (filter (fun c => eligible profile c = true) candidates))
  /\ forall i rec, recommendations r !! i = Some rec ->
       Recommendation.rank rec = Z.of_nat i + 1
       /\ exists item,
            item ∈ candidates /\ eligible profile item = true
            /\ Recommendation.id rec = ContentItem.id item
            /\ Recommendation.title rec = ContentItem.title item
            /\ Recommendation.format rec
               = ContentFormat_value (ContentItem.format item)
            /\ Recommendation.difficulty rec
               = Difficulty_value (ContentItem.difficulty item)
            /\ Recommendation.duration_minutes rec
               = ContentItem.duration_minutes item
            /\ Recommendation.tags rec = ContentItem.tags item
            /\ Recommendation.match_score rec
               = Some (py.round3 (score_of profile item)).
Proof.
  unfold _rule_based_rerank. fold (picks profile candidates). intros H.
  apply bind_Ok in H as (recs & Hrecs & [= <-]). simpl.
  split; [done|]. split.
  - apply mapM_Ok_length in Hrecs.
    by rewrite Hrecs, enumerate_length, picks_length.
  - intros i rec Hi.
    destruct (mapM_Ok_lookup _ _ _ _ _ Hrecs Hi) as ([rank [s item]] & Hl & Hp).
    rewrite enumerate_lookup in Hl.
    destruct (picks profile candidates !! i) as [[s' item']|] eqn:E; [|done].
    injection Hl as <- <- <-.
    apply list_elem_of_lookup_2, picks_elem in E as (Hin & Hel & ->).
    rewrite pick_of_cases in Hp by lia.
    destruct (in_range _); [|done]. injection Hp as <-. simpl.
    split; [lia|]. exists item'. repeat split; done.
Qed.

Lemma eligible_spec profile item :
  eligible profile item = true
  <-> (ContentItem.id item ∉ UserProfile.viewed_content_ids profile)
      /\ ContentItem.duration_minutes item <= UserProfile.time_per_day profile.
Proof.
  unfold eligible. rewrite andb_true_iff, !negb_true_iff.
  rewrite bool_decide_eq_false, Z.ltb_ge. done.
Qed.
End rule_based_props.

(** The rule-based path never recommends a viewed or over-budget item. *)
Lemma rule_based_rerank_unviewed profile candidates r rec :
  llm_ranker._rule_based_rerank profile candidates = Ok r ->
  rec ∈ llm_ranker.recommendations r ->
  (schemas.Recommendation.id rec ∉ schemas.UserProfile.viewed_content_ids profile)
  /\ schemas.Recommendation.duration_minutes rec
     <= schemas.UserProfile.time_per_day profile.
Proof.
  intros H (i & Hi)%list_elem_of_lookup_1.
  destruct (rule_based_rerank_Ok _ _ _ H) as (_ & _ & Hrecs).
  destruct (Hrecs i rec Hi) as (_ & item & _ & Hel & -> & _ & _ & _ & -> & _).
  by apply eligible_spec.
Qed.

(** ** Claims about the fallback contract *)

(** C2 (the code departs from the claim): for the learner [u1] of the mock
    data and five retrieval candidates of the mock catalogue, three
    candidates are eligible, the third pick scores [-0.15], the
    [match_score] field rejects it, and the rule-based path raises instead
    of returning.  With no eligible candidate the path returns the empty
    list. *)
Theorem rule_based_rerank_raises_on_negative_score :
  filter (fun c => llm_ranker.eligible alice c = true)
         [item9; item4; item3; item5; item10]
  = [item9; item4; item10]
  /\ Qred (llm_ranker.score_of alice item10) = (-3 # 20)%Q
  /\ llm_ranker._rule_based_rerank alice [item9; item4; item3; item5; item10]
     = Raise ValidationError
  /\ is_ok (llm_ranker._rule_based_rerank alice [item3; item5]) = true
  /\ schemas.UserProfile.valid alice
  /\ Forall schemas.ContentItem.valid [item9; item4; item3; item5; item10].
Proof.
  split; [vm_compute; reflexivity|]. split; [vm_compute; reflexivity|].
  split; [vm_compute; reflexivity|]. split; [vm_compute; reflexivity|].
  split; [reflexivity|]. repeat constructor.
Qed.

(** C1 (the code departs from the claim): a credential is configured, the
    remote call fails with a transport error, eligible candidates exist,
    and [rerank] raises: the failure of the remote path is caught, but the
    fallback it runs is the rule-based path, which raises on these
    candidates. *)
Theorem rerank_fallback_raises :
  llm_ranker.rerank "hf_token" llm_ranker.Transport_error alice
    [item9; item4; item3; item5; item10]
  = Raise ValidationError
  /\ llm_ranker.eligible alice item9 = true
  /\ schemas.UserProfile.valid alice
  /\ Forall schemas.ContentItem.valid [item9; item4; item3; item5; item10].
Proof.
  split; [vm_compute; reflexivity|]. split; [vm_compute; reflexivity|].
  split; [reflexivity|]. repeat constructor.
Qed.

(** Whatever the remote path does, when it fails [rerank] is the
    rule-based path. *)
Lemma rerank_remote_failure key outcome profile candidates :
  (forall text reasoning,
     llm_ranker._call_llm outcome = Ok (text, reasoning) ->
     is_ok (llm_ranker._parse_llm_response text candidates) = false) ->
  llm_ranker.rerank key outcome profile candidates
  = llm_ranker._rule_based_rerank profile candidates.
Proof.
  intros Hfail. unfold llm_ranker.rerank.
  destruct (negb (llm_ranker.nonempty key)); [done|].
  destruct (llm_ranker._call_llm outcome) as [[text reasoning]|e]; [|done].
  specialize (Hfail text reasoning eq_refl). simpl.
  by destruct (llm_ranker._parse_llm_response text candidates).
Qed.

(** The four failures the specification names. *)
Lemma call_llm_failures :
  llm_ranker._call_llm llm_ranker.Transport_error = Raise ConnectionError
  /\ (forall status text, 400 <= status < 600 ->
        llm_ranker._call_llm (llm_ranker.Response status text) = Raise HTTPError)
  /\ llm_ranker._call_llm
       (llm_ranker.Response 200
          (quoted "{'choices': [{'message': {'content': '  ', 'reasoning': null}}]}"))
     = Raise ValueError
  /\ forall candidates,
       llm_ranker._parse_llm_response "I cannot rank these items." candidates
       = Raise ValueError.
Proof.
  split; [done|]. split.
  - intros status text [H1 H2]. simpl.
    destruct (Z.leb_spec 400 status); [|lia].
    by destruct (Z.ltb_spec status 600); [|lia].
  - split; [vm_compute; reflexivity|]. intros candidates. reflexivity.
Qed.

(** C10: [rerank] returns what the rule-based path returns, or the complete
    list parsed from the remote answer with method [llm]; the rule-based
    path marks its result [rule-based]; and a remote answer one of whose
    first three objects is rejected yields the rule-based result alone. *)
Theorem rerank_single_path (key : string) (outcome : llm_ranker.post_outcome)
    (profile : schemas.UserProfile.t) (candidates : list schemas.ContentItem.t) :
  (llm_ranker.rerank key outcome profile candidates
   = llm_ranker._rule_based_rerank profile candidates
   \/ exists text reasoning recs,
        llm_ranker._call_llm outcome = Ok (text, reasoning)
        /\ llm_ranker._parse_llm_response text candidates = Ok recs
        /\ llm_ranker.rerank key outcome profile candidates
           = Ok (llm_ranker.mkRerankResult recs reasoning "llm"))
  /\ (forall r, llm_ranker._rule_based_rerank profile candidates = Ok r ->
        llm_ranker.method r = "rule-based"
        /\ forall rec, rec ∈ llm_ranker.recommendations r ->
             exists rank s item,
               (s, item) ∈ picks profile candidates
               /\ llm_ranker.pick_of profile (rank, (s, item)) = Ok rec)
  /\ (forall text reasoning entry e,
        llm_ranker._call_llm outcome = Ok (text, reasoning) ->
        entry ∈ py.enumerate 1 (py.slice_to 3 (llm_ranker._extract_json_array text)) ->
        llm_ranker.recommendation_of (llm_ranker.cand_map_of candidates) entry
        = Raise e ->
        llm_ranker.rerank key outcome profile candidates
        = llm_ranker._rule_based_rerank profile candidates).
Proof.
  split; [|split].
  - unfold llm_ranker.rerank.
    destruct (negb (llm_ranker.nonempty key)); [by left|].
    destruct (llm_ranker._call_llm outcome) as [[text reasoning]|e]; [|by left].
    simpl.
    destruct (llm_ranker._parse_llm_response text candidates) as [recs|e] eqn:E;
      [|by left].
    right. by exists text, reasoning, recs.
  - intros r H. unfold llm_ranker._rule_based_rerank in H.
    fold (picks profile candidates) in H.
    apply bind_Ok in H as (recs & Hrecs & [= <-]). simpl. split; [done|].
    intros rec (i & Hi)%list_elem_of_lookup_1.
    destruct (mapM_Ok_lookup _ _ _ _ _ Hrecs Hi) as ([rank [s item]] & Hl & Hp).
    exists rank, s, item. split; [|done].
    apply list_elem_of_lookup_2, enumerate_elem in Hl. tauto.
  - intros text reasoning entry e Hcall Hin Hraise.
    apply rerank_remote_failure. intros text' reasoning' Hcall'.
    rewrite Hcall in Hcall'. injection Hcall' as <- <-.
    unfold llm_ranker._parse_llm_response.
    destruct (llm_ranker._extract_json_array text) as [|x l]; [done|].
    apply list_elem_of_In in Hin.
    by destruct (mapM_Raise _ _ _ _ Hin Hraise) as [e' ->].
Qed.

(** C3 (the code departs from the claim): the learner [u1] has viewed item
    1; retrieval hands the ranker only unviewed candidates; the remote
    answer names item 1; the response recommends item 1. *)
Theorem llm_path_recommends_viewed_item :
  embeddings.retrieve_top_k sqrt_fixed [[1; 0]]%Q [[1; 0]; [1; 0]; [1; 0]; [1; 0]]%Q
    [item1; item9; item4; item10] 5
    (Some (schemas.UserProfile.viewed_content_ids alice))
  = Ok [item9; item4; item10]
  /\ exists resp st,
       recommender.get_recommendations sqrt_fixed toy_backend "hf_token"
         (llm_ranker.Response 200 answer_with_item1)
         [item1; item9; item4; item10] alice recommender.initial
       = (Ok resp, st)
       /\ map schemas.Recommendation.id (recommender.recommendations resp) = [1]
       /\ schemas.UserProfile.viewed_content_ids alice = [1]
       /\ recommender.pipeline_log resp
          = ["Embed content catalogue"; "Embed user profile";
             "Cosine similarity retrieval"; "LLM re-ranking"].
Proof.
  split; [vm_compute; reflexivity|].
  do 2 eexists. split; [vm_compute; reflexivity|]. repeat split.
Qed.

(** ** The catalogue-embedding cache *)

Section cache_props.
Import schemas.
Variable _embed_texts : list string -> result (list (list Q)).

Lemma cache_state_after items st embs st1 :
  recommender._get_cached_content_embeddings _embed_texts items st = (Ok embs, st1) ->
  recommender._cached_content_embs st1 = Some embs
  /\ recommender._cache_hash st1 = Some (py.hash_tuple (map ContentItem.id items)).
Proof.
  unfold recommender._get_cached_content_embeddings,
    recommender.get_content_embeddings, recommender.call_backend.
  destruct (recommender._cached_content_embs st) as [c|] eqn:Ec,
           (recommender._cache_hash st) as [h|] eqn:Eh; simpl.
  - destruct (Z.eqb_spec h (py.hash_tuple (map ContentItem.id items))); simpl.
    + intros [= <- <-]. by subst.
    + destruct (_embed_texts _); intros [= <- <-]; done.
  - destruct (_embed_texts _); intros [= <- <-]; done.
  - destruct (_embed_texts _); intros [= <- <-]; done.
  - destruct (_embed_texts _); intros [= <- <-]; done.
Qed.

Lemma cache_hit items st embs :
  recommender._cached_content_embs st = Some embs ->
  recommender._cache_hash st = Some (py.hash_tuple (map ContentItem.id items)) ->
  recommender._get_cached_content_embeddings _embed_texts items st = (Ok embs, st).
Proof.
  intros Hc Hh. unfold recommender._get_cached_content_embeddings.
  by rewrite Hc, Hh, Z.eqb_refl.
Qed.

Lemma cache_miss items st embs h :
  recommender._cached_content_embs st = Some embs ->
  recommender._cache_hash st = Some h ->
  h <> py.hash_tuple (map ContentItem.id items) ->
  let run := recommender._get_cached_content_embeddings _embed_texts items st in
  run.1 = _embed_texts (map embeddings._content_text items)
  /\ recommender.backend_calls run.2
     = (recommender.backend_calls st ++ [map embeddings._content_text items])%list.
Proof.
  intros Hc Hh Hne. unfold recommender._get_cached_content_embeddings,
    recommender.get_content_embeddings, recommender.call_backend.
  rewrite Hc, Hh. destruct (Z.eqb_spec h (py.hash_tuple (map ContentItem.id items)));
    [done|]. simpl.
  by destruct (_embed_texts _).
Qed.
End cache_props.

(** C6 (amended to the hash): after a run that returned, a later run on a
    catalogue with the same ordered ids (whatever its texts) or, more
    generally, with an id tuple of the same hash makes no call to the
    backend and returns the cached embeddings; a later run on a catalogue
    whose id tuple has another hash calls the backend once, on the texts of
    that catalogue. *)
Theorem cache_keyed_by_id_hash (_embed_texts : list string -> result (list (list Q)))
    (items : list schemas.ContentItem.t) (st st1 : recommender.state)
    (embs : list (list Q)) :
  recommender._get_cached_content_embeddings _embed_texts items st = (Ok embs, st1) ->
  (forall items',
     map schemas.ContentItem.id items' = map schemas.ContentItem.id items ->
     recommender._get_cached_content_embeddings _embed_texts items' st1
     = (Ok embs, st1))
  /\ (forall items',
        py.hash_tuple (map schemas.ContentItem.id items')
        = py.hash_tuple (map schemas.ContentItem.id items) ->
        recommender._get_cached_content_embeddings _embed_texts items' st1
        = (Ok embs, st1))
  /\ (forall items',
        py.hash_tuple (map schemas.ContentItem.id items')
        <> py.hash_tuple (map schemas.ContentItem.id items) ->
        let run := recommender._get_cached_content_embeddings _embed_texts items' st1 in
        run.1 = _embed_texts (map embeddings._content_text items')
        /\ recommender.backend_calls run.2
           = (recommender.backend_calls st1
              ++ [map embeddings._content_text items'])%list).
Proof.
  intros H. destruct (cache_state_after _ _ _ _ _ H) as [Hc Hh].
  assert (forall items',
            py.hash_tuple (map schemas.ContentItem.id items')
            = py.hash_tuple (map schemas.ContentItem.id items) ->
            recommender._get_cached_content_embeddings _embed_texts items' st1
            = (Ok embs, st1)) as Hsame.
  { intros items' Heq. apply cache_hit; [done|]. by rewrite Heq. }
  split; [|split].
  - intros items' Heq. apply Hsame. by rewrite Heq.
  - exact Hsame.
  - intros items' Hne. eapply cache_miss; [done|done|]. congruence.
Qed.

Lemma cache_keyed_by_id_hash_witness :
  exists st1,
    recommender._get_cached_content_embeddings toy_backend [item1; item4]
      recommender.initial
    = (Ok [[1; 0]; [1; 0]]%Q, st1)
    /\ length (recommender.backend_calls st1) = 1%nat
    /\ recommender._get_cached_content_embeddings toy_backend [item1; item4] st1
       = (Ok [[1; 0]; [1; 0]]%Q, st1).
Proof.
  eexists. split; [vm_compute; reflexivity|]. split; [reflexivity|].
  refine (proj1 (cache_keyed_by_id_hash toy_backend [item1; item4]
                   recommender.initial _ _ _) [item1; item4] eq_refl).
  vm_compute. reflexivity.
Defined.

(** C6 as stated: the catalogue changes from the id set [{-1}] to the id set
    [{-2}], and the second run does not call the backend: both id tuples
    hash to the same value. *)
Lemma cache_misses_changed_id_set :
  exists embs st1,
    recommender._get_cached_content_embeddings toy_backend [item_minus1]
      recommender.initial = (Ok embs, st1)
    /\ map schemas.ContentItem.id [item_minus1] <> map schemas.ContentItem.id [item_minus2]
    /\ recommender._get_cached_content_embeddings toy_backend [item_minus2] st1
       = (Ok embs, st1)
    /\ recommender.backend_calls st1 = [[embeddings._content_text item_minus1]].
Proof.
  do 2 eexists. split; [vm_compute; reflexivity|]. split; [done|].
  split; vm_compute; reflexivity.
Qed.

(** Two runs of the pipeline on an unchanged catalogue: the second one
    embeds the learner only. *)
Example pipeline_second_run_uses_cache :
  let run1 := recommender.get_recommendations sqrt_fixed toy_backend ""
                llm_ranker.Transport_error [item9; item4] alice
                recommender.initial in
  let run2 := recommender.get_recommendations sqrt_fixed toy_backend ""
                llm_ranker.Transport_error [item9; item4] alice run1.2 in
  is_ok run1.1 = true /\ is_ok run2.1 = true
  /\ recommender.backend_calls run1.2
     = [map embeddings._content_text [item9; item4]; [embeddings._user_text alice]]
  /\ recommender.backend_calls run2.2
     = (recommender.backend_calls run1.2 ++ [[embeddings._user_text alice]])%list.
Proof. vm_compute. repeat split. Qed.
